(** * fetch-request: a shallow embedding of src/index.ts

    The request facade of src/index.ts is embedded as pure functions over a
    small model of JavaScript values.  Objects are insertion-ordered
    association lists (the order is what [Object.entries], [Object.assign]
    and the spread operator observe); in-place mutation of a configuration
    object is modelled by returning the new state of that object; a thrown
    exception is the [Throw] branch of the error monad [throws]; a promise
    is described by when and how it settles on a virtual time line. *)

From Stdlib Require Import String Ascii List ZArith Bool Lia DecimalString.
Import ListNotations.
Open Scope string_scope.

Set Implicit Arguments.

(** ** JavaScript values *)

Module JS.

(** Numbers are restricted to integers; plain objects list their own
    enumerable properties in property order, the keys being names rather
    than array indices; [VFile], [VFormData] and [VError] are the host
    classes the source tests with [instanceof] or stringifies; [VHost] is
    any other host object (AbortSignal, Promise, Blob, ...), which has no
    own enumerable property and no [toString] of its own.  The entries of
    a [VFormData] hold the values given to [append]. *)
#[warnings="-register-all"]
Inductive value : Type :=
| VUndefined
| VNull
| VBool (b : bool)
| VNum (n : Z)
| VStr (s : string)
| VObject (fields : list (string * value))
| VArray (items : list value)
| VFile (name : string)
| VFormData (entries : list (string * value))
| VError (name message : string)
| VHost (cls : string).

Definition obj := list (string * value).

(** Exceptions: [Throw e] is a synchronous [throw e]. *)
Inductive throws (A : Type) : Type :=
| Ok (a : A)
| Throw (e : value).
Arguments Ok {A} a.
Arguments Throw {A} e.

Definition bind {A B} (m : throws A) (f : A -> throws B) : throws B :=
  match m with
  | Ok a => f a
  | Throw e => Throw e
  end.

Notation "x <- m ;; k" := (bind m (fun x => k))
  (at level 61, m at next level, right associativity).

Definition TypeError (msg : string) : value := VError "TypeError" msg.

(** *** Coercions *)

Definition nat_to_string (n : nat) : string :=
  NilZero.string_of_uint (Nat.to_uint n).

Definition Z_to_string (n : Z) : string :=
  NilZero.string_of_int (Z.to_int n).

(** ToBoolean. *)
Definition truthy (v : value) : bool :=
  match v with
  | VUndefined | VNull => false
  | VBool b => b
  | VNum n => negb (Z.eqb n 0)
  | VStr s => negb (String.eqb s "")
  | _ => true
  end.

(** [a || b]. *)
Definition js_or (a b : value) : value := if truthy a then a else b.

(** [a && b]. *)
Definition js_and (a b : value) : value := if truthy a then b else a.

(** ToString (for objects, through ToPrimitive with the built-in
    [toString] methods). *)
Fixpoint to_str (v : value) : string :=
  match v with
  | VUndefined => "undefined"
  | VNull => "null"
  | VBool true => "true"
  | VBool false => "false"
  | VNum n => Z_to_string n
  | VStr s => s
  | VObject _ => "[object Object]"
  | VArray items =>
      (fix join (l : list value) : string :=
         match l with
         | [] => ""
         | x :: r =>
             let e := match x with
                      | VUndefined | VNull => ""
                      | _ => to_str x
                      end in
             match r with
             | [] => e
             | _ :: _ => e ++ "," ++ join r
             end
         end) items
  | VFile _ => "[object File]"
  | VFormData _ => "[object FormData]"
  | VError name message =>
      if String.eqb name "" then message
      else if String.eqb message "" then name
      else name ++ ": " ++ message
  | VHost cls => "[object " ++ cls ++ "]"
  end.

(** [typeof v === 'object']. *)
Definition typeof_object (v : value) : bool :=
  match v with
  | VNull | VObject _ | VArray _ | VFile _ | VFormData _ | VError _ _
  | VHost _ => true
  | _ => false
  end.

(** [v === s] for a string literal [s]. *)
Definition strict_eq_str (v : value) (s : string) : bool :=
  match v with
  | VStr s' => String.eqb s' s
  | _ => false
  end.

(** *** Objects *)

(** [o[k]] on an object's own properties. *)
Fixpoint obj_get (k : string) (o : obj) : value :=
  match o with
  | [] => VUndefined
  | (k', v) :: r => if String.eqb k k' then v else obj_get k r
  end.

Fixpoint obj_has (k : string) (o : obj) : bool :=
  match o with
  | [] => false
  | (k', _) :: r => if String.eqb k k' then true else obj_has k r
  end.

(** [o[k] = v]: an existing key keeps its place, a new key goes last. *)
Fixpoint obj_set (k : string) (v : value) (o : obj) : obj :=
  match o with
  | [] => [(k, v)]
  | (k', v') :: r =>
      if String.eqb k k' then (k, v) :: r else (k', v') :: obj_set k v r
  end.

(** The rest of a destructuring pattern that takes [k] out. *)
Fixpoint obj_remove (k : string) (o : obj) : obj :=
  match o with
  | [] => []
  | (k', v) :: r =>
      if String.eqb k k' then obj_remove k r else (k', v) :: obj_remove k r
  end.

(** [v[k]] for any value: the keys the source reads this way are own
    properties of plain objects only. *)
Definition prop_get (v : value) (k : string) : value :=
  match v with
  | VObject o => obj_get k o
  | _ => VUndefined
  end.

Fixpoint index_entries (i : nat) (l : list value) : obj :=
  match l with
  | [] => []
  | x :: r => (nat_to_string i, x) :: index_entries (S i) r
  end.

Fixpoint chars (s : string) : list value :=
  match s with
  | EmptyString => []
  | String c r => VStr (String c EmptyString) :: chars r
  end.

(** Own enumerable string-keyed properties of a value that is neither
    [null] nor [undefined], in property order. *)
Definition entries_of (v : value) : obj :=
  match v with
  | VObject o => o
  | VArray items => index_entries 0 items
  | VStr s => index_entries 0 (chars s)
  | _ => []
  end.

(** [Object.entries(v)]. *)
Definition Object_entries (v : value) : throws obj :=
  match v with
  | VUndefined | VNull =>
      Throw (TypeError "Cannot convert undefined or null to object")
  | _ => Ok (entries_of v)
  end.

(** Copying the properties of one source onto a target: for each own key
    of the source, in order, [target[k] = source[k]]. *)
Definition assign (target source : obj) : obj :=
  fold_left (fun t k => obj_set k (obj_get k source) t)
            (map fst source) target.

(** What a spread [...v] or an [Object.assign] source contributes:
    [null] and [undefined] contribute nothing. *)
Definition spread_of (v : value) : obj :=
  match v with
  | VUndefined | VNull => []
  | _ => entries_of v
  end.

(** [Object.assign(target, ...sources)]. *)
Definition Object_assign (target : obj) (sources : list value) : obj :=
  fold_left (fun t s => assign t (spread_of s)) sources target.

End JS.
Export JS.

(** ** Induction on values *)

Section ValueInduction.

Variable Q : value -> Prop.
Hypothesis Q_undefined : Q VUndefined.
Hypothesis Q_null : Q VNull.
Hypothesis Q_bool : forall b, Q (VBool b).
Hypothesis Q_num : forall n, Q (VNum n).
Hypothesis Q_str : forall s, Q (VStr s).
Hypothesis Q_object :
  forall fields, Forall (fun kv => Q (snd kv)) fields -> Q (VObject fields).
Hypothesis Q_array : forall items, Forall Q items -> Q (VArray items).
Hypothesis Q_file : forall name, Q (VFile name).
Hypothesis Q_formdata : forall entries, Q (VFormData entries).
Hypothesis Q_error : forall name message, Q (VError name message).
Hypothesis Q_host : forall cls, Q (VHost cls).

Fixpoint value_nested_ind (v : value) : Q v :=
  match v with
  | VUndefined => Q_undefined
  | VNull => Q_null
  | VBool b => Q_bool b
  | VNum n => Q_num n
  | VStr s => Q_str s
  | VObject fields =>
      Q_object
        ((fix go (l : obj) : Forall (fun kv => Q (snd kv)) l :=
            match l with
            | [] => Forall_nil _
            | kv :: r => Forall_cons kv (value_nested_ind (snd kv)) (go r)
            end) fields)
  | VArray items =>
      Q_array
        ((fix go (l : list value) : Forall Q l :=
            match l with
            | [] => Forall_nil _
            | x :: r => Forall_cons x (value_nested_ind x) (go r)
            end) items)
  | VFile name => Q_file name
  | VFormData entries => Q_formdata entries
  | VError name message => Q_error name message
  | VHost cls => Q_host cls
  end.

End ValueInduction.

(** ** The platform

    What the source takes from its runtime and from the [qs] package and
    does not define itself.  Every definition below is parametric in it. *)

Class Platform : Type := {
  (** [qs.stringify] with its default options. *)
  qs_stringify : value -> string;
  (** [JSON.stringify]: a string, or [undefined]. *)
  JSON_stringify : value -> value;
  (** Calling, with one argument and no receiver, the member that a plain
      object inherits from [Object.prototype] under the given name. *)
  Object_prototype_call : string -> value -> throws value;
  (** [Date.prototype.toTimeString] on a time stamp in milliseconds. *)
  toTimeString : Z -> string;
  (** The text of the number [ms / 1000]. *)
  seconds_to_string : Z -> string;
  (** The time after which [setTimeout] fires for a delay argument that is
      not an integer between 1 and 2^31 - 1. *)
  setTimeout_clamp : value -> N
}.

(** ** src/index.ts *)

Section Source.

Context {P : Platform}.

(** [application] *)
Definition application_json : string := "application/json".
Definition application_form : string := "application/x-www-form-urlencoded".

Definition is_File (v : value) : bool :=
  match v with VFile _ => true | _ => false end.

Definition is_FormData (v : value) : bool :=
  match v with VFormData _ => true | _ => false end.

(** The template [key ? `${key}[${i}]` : i]. *)
Definition field_name (key i : string) : string :=
  if String.eqb key "" then i else key ++ "[" ++ i ++ "]".

(** [getFormData(data, key, body)] as the effect it has on [body], the
    list of entries appended so far.  The loop over [Object.entries(data)]
    is unfolded per shape of [data]; [getFormData_entries] below states it
    once for all shapes. *)
Fixpoint getFormData_body (data : value) (key : string) (body : obj)
  {struct data} : throws obj :=
  match data with
  | VFormData _ => Ok body
  | VUndefined | VNull =>
      Throw (TypeError "Cannot convert undefined or null to object")
  | VObject fields =>
      (fix loop (es : obj) (body : obj) {struct es} : throws obj :=
         match es with
         | [] => Ok body
         | (i, item) :: es' =>
             let k := field_name key i in
             if typeof_object item && negb (is_File item)
             then match getFormData_body item k body with
                  | Ok body' => loop es' body'
                  | Throw e => Throw e
                  end
             else loop es' (body ++ [(k, item)])%list
         end) fields body
  | VArray items =>
      (fix loop (n : nat) (l : list value) (body : obj) {struct l}
         : throws obj :=
         match l with
         | [] => Ok body
         | item :: l' =>
             let k := field_name key (nat_to_string n) in
             if typeof_object item && negb (is_File item)
             then match getFormData_body item k body with
                  | Ok body' => loop (S n) l' body'
                  | Throw e => Throw e
                  end
             else loop (S n) l' (body ++ [(k, item)])%list
         end) 0%nat items body
  | VStr s =>
      Ok (body ++ map (fun e => (field_name key (fst e), snd e))
                      (index_entries 0 (chars s)))%list
  | _ => Ok body
  end.

(** The body of the [for ... of Object.entries(data)] loop. *)
Fixpoint getFormData_loop (es : obj) (key : string) (body : obj)
  : throws obj :=
  match es with
  | [] => Ok body
  | (i, item) :: es' =>
      let k := field_name key i in
      if typeof_object item && negb (is_File item)
      then body' <- getFormData_body item k body ;;
           getFormData_loop es' key body'
      else getFormData_loop es' key (body ++ [(k, item)])%list
  end.

(** [getFormData(data)] with the default [key = ''] and a fresh
    [FormData]. *)
Definition getFormData (data : value) : throws value :=
  if is_FormData data then Ok data
  else body <- getFormData_body data "" [] ;; Ok (VFormData body).

(** Names a plain object inherits from [Object.prototype]. *)
Definition Object_prototype_names : list string :=
  ["constructor"; "hasOwnProperty"; "isPrototypeOf"; "propertyIsEnumerable";
   "toLocaleString"; "toString"; "valueOf"; "__proto__";
   "__defineGetter__"; "__defineSetter__"; "__lookupGetter__";
   "__lookupSetter__"].

(** [applicationToBodyFun[key]]; [None] is [undefined]. *)
Definition applicationToBodyFun (key : string)
  : option (value -> throws value) :=
  if String.eqb key application_json then
    Some (fun data => Ok (JSON_stringify data))
  else if String.eqb key application_form then
    Some (fun data => Ok (VStr (qs_stringify data)))
  else if existsb (String.eqb key) Object_prototype_names then
    Some (Object_prototype_call key)
  else None.

Definition content_type_keys : list string :=
  ["Content-Type"; "Content-type"; "content-Type"; "content-type"].

(** The [reduce] of [toBody]. *)
Definition contentType (config : obj) : value :=
  fold_left
    (fun c i =>
       js_or (js_and (obj_get "headers" config)
                     (prop_get (obj_get "headers" config) i)) c)
    content_type_keys (VStr "").

(** [toBody(config)].  The function mutates [config] and returns it:
    [Ok config'] is the state of that object on return.  Every [Throw]
    happens before the assignment, so the object is then as it was. *)
Definition toBody (config : obj) : throws obj :=
  if strict_eq_str (obj_get "method" config) "GET" then
    let params := qs_stringify (obj_get "data" config) in
    if negb (String.eqb params "") then
      Ok (obj_set "url"
            (VStr (to_str (obj_get "url" config) ++ "?" ++ params)) config)
    else Ok config
  else
    let contentType := contentType config in
    let toBodyFun :=
      if truthy contentType then applicationToBodyFun (to_str contentType)
      else Some getFormData in
    match toBodyFun with
    | None => Throw (TypeError "toBodyFun is not a function")
    | Some f =>
        body <- f (obj_get "data" config) ;;
        Ok (obj_set "body" body config)
    end.

(** The state of the object given to [toBody] once the call is over,
    whether it returned or threw. *)
Definition toBody_effect (config : obj) : obj :=
  match toBody config with
  | Ok config' => config'
  | Throw _ => config
  end.

(** [labelToConfig] *)
Definition labelToConfig (config : value) : value :=
  match config with
  | VStr s => VObject [("label", VStr s)]
  | _ => config
  end.

(** [statisticalTime()] called when the clock reads [start]; the result
    is the closure, called when the clock reads [end_]. *)
Definition statisticalTime (start end_ : Z) : value :=
  VObject [("start", VStr (toTimeString start));
           ("end", VStr (toTimeString end_));
           ("total", VStr (seconds_to_string (end_ - start) ++ "秒"))].

(** [erroText], in declaration order. *)
Definition erroText : list (string * string) :=
  [("timeout", "网络连接超时");
   ("Network Error", "请求地址错误");
   ("Failed to fetch", "请求地址错误");
   ("request:fail", "请求地址错误")].

(** [s] occurs in [t]. *)
Fixpoint contains (s t : string) : bool :=
  if String.prefix s t then true
  else match t with
       | EmptyString => false
       | String _ t' => contains s t'
       end.

(** A pattern without regular-expression syntax: letters, digits, spaces
    and colons. *)
Definition literal_char (c : ascii) : bool :=
  let n := nat_of_ascii c in
  ((48 <=? n) && (n <=? 58) || (65 <=? n) && (n <=? 90)
   || (97 <=? n) && (n <=? 122) || (n =? 32))%nat.

Fixpoint literal_pattern (s : string) : bool :=
  match s with
  | EmptyString => true
  | String c r => literal_char c && literal_pattern r
  end.

(** [new RegExp(key).test(error)] for a literal pattern. *)
Definition RegExp_test (key error : string) : bool := contains key error.

Fixpoint erroToText_loop (entries : list (string * string)) (error : string)
  : string :=
  match entries with
  | [] => "其他错误"
  | (key, item) :: r =>
      if RegExp_test key error then item else erroToText_loop r error
  end.

(** [erroToText(error)]; [test] turns its argument into a string. *)
Definition erroToText (error : value) : string :=
  erroToText_loop erroText (to_str error).

(** *** Promises and the transport

    A promise is described by what an observer sees of it: it stays
    pending, or it settles at a time counted in milliseconds from the
    start of the call. *)

Inductive settlement : Type :=
| Resolved (v : value)
| Rejected (e : value).

Inductive promise : Type :=
| Pending
| Settled (at_ : N) (s : settlement).

(** A [Response]: the promise [response.json()] returns (its time counted
    from the arrival of the response) and the outcome of
    [response[name]()] for a member name. *)
Record Response : Type := {
  json : promise;
  member_call : string -> throws value
}.

Inductive fetched : Type :=
| IsResponse (r : Response)
| NotResponse (v : value).

(** What the promise returned by [fetch] does. *)
Inductive fetching : Type :=
| Never
| Fulfils (at_ : N) (r : fetched)
| Fails (at_ : N) (e : value).

(** The surroundings of one call: what the transport does when left
    alone; how a pending call of the transport reacts, inside
    [controller.abort()], to the abort of the signal it was given
    ([Some e]: it rejects its promise with [e] at once, as the Fetch
    standard has it; [None]: it does nothing at once); and the wall clock
    ([clock t] is what [new Date()] reads [t] milliseconds into the
    call). *)
Class World : Type := {
  fetch : value -> obj -> fetching;
  on_abort : option value;
  clock : N -> Z
}.

(** The result of calling a request function: the state in which it
    leaves the configuration object, the promise it returns, and the time
    at which it signals its [AbortController], if it has one. *)
Record call : Type := {
  call_config : obj;
  call_promise : promise;
  call_abort_at : option N
}.

Definition promise_then (p : promise) (f : N -> value -> throws value)
  : promise :=
  match p with
  | Settled t (Resolved v) =>
      match f t v with
      | Ok v' => Settled t (Resolved v')
      | Throw e => Settled t (Rejected e)
      end
  | _ => p
  end.

Definition promise_catch (p : promise) (f : N -> value -> throws value)
  : promise :=
  match p with
  | Settled t (Rejected e) =>
      match f t e with
      | Ok v' => Settled t (Resolved v')
      | Throw e' => Settled t (Rejected e')
      end
  | _ => p
  end.

Context {W : World}.

(** When the timer set by [setTimeout(f, timeout)] fires. *)
Definition timer_delay (timeout : value) : N :=
  match timeout with
  | VNum n =>
      if ((1 <=? n) && (n <=? 2147483647))%Z then Z.to_N n
      else setTimeout_clamp timeout
  | _ => setTimeout_clamp timeout
  end.

(** The callback of the timer: [controller.abort()], then
    [reject('request timeout')].  A transport that reacts to the abort at
    once has rejected its own promise before the second statement runs,
    so its reaction is the first in the job queue and the race takes its
    error; otherwise the race takes the sentinel. *)
Definition timer_rejection : value :=
  match on_abort with
  | Some e => e
  | None => VStr "request timeout"
  end.

(** [Promise.race([fetch(...), timeout])]: the transport wins when it
    settles strictly before the timer fires; the timer always fires in
    the end. *)
Definition race (f : fetching) (delay : N) : N * (fetched + value) :=
  match f with
  | Fulfils t r =>
      if (t <? delay)%N then (t, inl r) else (delay, inr timer_rejection)
  | Fails t e =>
      if (t <? delay)%N then (t, inr e) else (delay, inr timer_rejection)
  | Never => (delay, inr timer_rejection)
  end.

(** The [then] callback of [requestFunction], run at time [t]. *)
Definition unwrap (config : obj) (t : N) (response : fetched) : promise :=
  match response with
  | NotResponse _ => Settled t (Resolved VUndefined)
  | IsResponse r =>
      let responseType := obj_get "responseType" config in
      if truthy responseType && negb (strict_eq_str responseType "json")
      then match member_call r (to_str responseType) with
           | Ok v => Settled t (Resolved (VObject [(to_str responseType, v)]))
           | Throw e => Settled t (Rejected e)
           end
      else match json r with
           | Pending => Pending
           | Settled dt s => Settled (t + dt) s
           end
  end.

(** The field initialiser of [requestFunction]. *)
Definition requestFunction_default (config : obj) : throws call :=
  config <- toBody config ;;
  let config := obj_set "signal" (VHost "AbortSignal") config in
  let delay := timer_delay (obj_get "timeout" config) in
  let '(t, r) := race (fetch (obj_get "url" config) config) delay in
  Ok {| call_config := config;
        call_promise :=
          match r with
          | inl response => unwrap config t response
          | inr e => Settled t (Rejected e)
          end;
        call_abort_at := Some delay |}.

(** *** The class [FetchRequest] *)

Record FetchRequest : Type := {
  host : string;
  apiPath : string;
  defaultConfig : obj;
  interceptorsRequest : obj -> throws obj;
  interceptorsResponse : value -> obj -> throws value;
  requestFunction : obj -> throws call
}.

(** [TFetchRequestConfig]; [None] is an absent field. *)
Record TFetchRequestConfig : Type := {
  init_defaultConfig : option obj;
  init_host : option string;
  init_apiPath : option string;
  init_interceptorsRequest : option (obj -> throws obj);
  init_interceptorsResponse : option (value -> obj -> throws value);
  init_requestFunction : option (obj -> throws call)
}.

(** The field initialisers of the class. *)
Definition initial_defaultConfig : obj :=
  [("mode", VStr "cors");
   ("method", VStr "GET");
   ("cache", VStr "default");
   ("credentials", VStr "omit");
   ("responseType", VStr "json");
   ("headers", VObject [("Accept", VStr application_json);
                        ("Content-Type", VStr application_json)]);
   ("timeout", VNum 5000)].

Definition or_else {A} (o : option A) (d : A) : A :=
  match o with Some a => a | None => d end.

(** [new FetchRequest(config)] *)
Definition new_FetchRequest (config : option TFetchRequestConfig)
  : FetchRequest :=
  match config with
  | None =>
      {| host := ""; apiPath := "";
         defaultConfig := initial_defaultConfig;
         interceptorsRequest := fun config => Ok config;
         interceptorsResponse := fun res _ => Ok res;
         requestFunction := requestFunction_default |}
  | Some c =>
      {| host := or_else (init_host c) "";
         apiPath := or_else (init_apiPath c) "";
         defaultConfig :=
           assign initial_defaultConfig (or_else (init_defaultConfig c) []);
         interceptorsRequest :=
           or_else (init_interceptorsRequest c) (fun config => Ok config);
         interceptorsResponse :=
           or_else (init_interceptorsResponse c) (fun res _ => Ok res);
         requestFunction :=
           or_else (init_requestFunction c) requestFunction_default |}
  end.

Definition baseURL (this : FetchRequest) : string :=
  host this ++ apiPath this.

(** The first two statements of [request]: the url after the prefixing
    rule. *)
Definition request_url (this : FetchRequest) (configs : obj) : value :=
  let url := match obj_get "url" configs with
             | VUndefined => VStr ""
             | u => u
             end in
  if String.prefix "http" (to_str url) then url
  else VStr (baseURL this ++ to_str url).

(** The object [{ url, ...this.defaultConfig, ...config }] handed to the
    request interceptor. *)
Definition request_config (this : FetchRequest) (configs : obj) : obj :=
  assign (assign [("url", request_url this configs)] (defaultConfig this))
         (obj_remove "url" configs).

(** The [catch] callback of [request]. *)
Definition on_error (error : value) : value :=
  VObject [("error", error); ("errorText", VStr (erroToText error))].

(** The object [{ time: st(), ...res }]. *)
Definition envelope (time res : value) : value :=
  VObject (assign [("time", time)] (spread_of res)).

(** [request(configs)] *)
Definition request (this : FetchRequest) (configs : obj) : throws call :=
  config <- interceptorsRequest this (request_config this configs) ;;
  let start := clock 0 in
  c <- requestFunction this config ;;
  let caught := promise_catch (call_promise c) (fun _ e => Ok (on_error e)) in
  Ok {| call_config := call_config c;
        call_promise :=
          promise_then caught
            (fun t res =>
               interceptorsResponse this
                 (envelope (statisticalTime start (clock t)) res)
                 (call_config c));
        call_abort_at := call_abort_at c |}.

(** The object [Object.assign({ method, url, data }, configs, ...args.map
    (labelToConfig))] that a function made by [createRequest] hands to
    [request]. *)
Definition createRequest_config (method configs url data : value)
  (args : list value) : obj :=
  Object_assign [("method", method); ("url", url); ("data", data)]
                (configs :: map labelToConfig args).

(** [createRequest(method, configs)(url, data, ...args)] *)
Definition createRequest (this : FetchRequest) (method configs : value)
  (url data : value) (args : list value) : throws call :=
  request this (createRequest_config method configs url data args).

Definition get this := createRequest this (VStr "GET") VUndefined.
Definition post this := createRequest this (VStr "POST") VUndefined.
Definition put this := createRequest this (VStr "PUT") VUndefined.
Definition patch this := createRequest this (VStr "PATCH") VUndefined.
Definition del this := createRequest this (VStr "DELETE") VUndefined.
Definition upload this :=
  createRequest this (VStr "POST") (VObject [("headers", VObject [])]).

(** Only the core pipeline participates: the interceptors and the
    request function behave as the field initialisers of the class. *)
Definition core_pipeline (this : FetchRequest) : Prop :=
  (forall config, interceptorsRequest this config = Ok config)
  /\ (forall res config, interceptorsResponse this res config = Ok res)
  /\ (forall config,
        requestFunction this config = requestFunction_default config).

(** What the [catch] and the [then] of [request] make of a promise when
    the response interceptor is the identity. *)
Definition settle (p : promise) : promise :=
  match p with
  | Pending => Pending
  | Settled t (Resolved v) =>
      Settled t (Resolved (envelope (statisticalTime (clock 0) (clock t)) v))
  | Settled t (Rejected e) =>
      Settled t (Resolved (envelope (statisticalTime (clock 0) (clock t))
                                    (on_error e)))
  end.

(** *** The console

    [console.groupCollapsed], [console.log] and [console.groupEnd] are
    recorded as the list of calls made, in order. *)

Inductive console_call : Type :=
| Console_groupCollapsed (args : list value)
| Console_log (args : list value)
| Console_groupEnd.

(** [consoleStyle] *)
Definition consoleStyle_request : string := "color: #0089E5;".
Definition consoleStyle_success : string := "color: #2DB700;".
Definition consoleStyle_fail : string := "color: #F41900;".

(** [v.k] where [v] may be anything: reading a property of [null] or
    [undefined] throws. *)
Definition member (v : value) (k : string) : throws value :=
  match v with
  | VUndefined | VNull =>
      Throw (TypeError ("Cannot read properties of " ++ to_str v))
  | _ => Ok (prop_get v k)
  end.

(** [log.request(config)] *)
Definition log_request (config : obj) : list console_call :=
  [Console_groupCollapsed
     [VStr ("%cRequest: "
            ++ to_str (js_or (obj_get "label" config) (obj_get "url" config))
            ++ " ⇅");
      VStr consoleStyle_request];
   Console_log [VStr "请求类型："; obj_get "method" config];
   Console_log [VStr "请求地址："; obj_get "url" config];
   Console_log [VStr "请求数据："; js_or (obj_get "data" config) (VStr "无")];
   Console_log [VStr "请求配置："; VObject config];
   Console_groupEnd].

(** The title of [log.response], before the elapsed time is added. *)
Definition response_title (config : obj) (success : bool) : string :=
  "%cResponse: "
  ++ to_str (js_or (obj_get "label" config) (obj_get "url" config))
  ++ " " ++ (if success then "√" else "×").

(** [log.response(res, config, success)]: the title is computed first,
    and reading [res.time] throws before anything is printed. *)
Definition log_response (res : value) (config : obj) (success : bool)
  : throws (list console_call) :=
  time <- member res "time" ;;
  let title := response_title config success in
  let title :=
    if truthy (js_and time (prop_get time "total"))
    then title ++ " 用时：" ++ to_str (prop_get time "total")
    else title in
  Ok ([Console_groupCollapsed
         [VStr title;
          VStr (if success then consoleStyle_success else consoleStyle_fail)];
       Console_log [VStr "响应数据："; res]]
      ++ (if success then []
          else [Console_log [VStr "响应异常：";
                             js_or (prop_get res "error") (VStr "无")];
                Console_log [VStr "异常解析："; prop_get res "errorText"]])
      ++ [Console_groupEnd])%list.

(** On a facade with the core pipeline, body synthesis returns, the
    configuration with its signal is [config], and the transport called
    with it fulfils with [response] at time [t], before the timer
    fires. *)
Definition arrives (this : FetchRequest) (configs config : obj) (t : N)
  (response : fetched) : Prop :=
  core_pipeline this
  /\ (exists config1,
        toBody (request_config this configs) = Ok config1
        /\ config = obj_set "signal" (VHost "AbortSignal") config1)
  /\ fetch (obj_get "url" config) config = Fulfils t response
  /\ (t <? timer_delay (obj_get "timeout" config))%N = true.

(** The transport settles strictly before time [d]. *)
Definition settles_before (f : fetching) (d : N) : bool :=
  match f with
  | Never => false
  | Fulfils t _ | Fails t _ => (t <? d)%N
  end.

End Source.

(** ** Notions the specification names

    Each is written from the words of the specification, to be compared
    with what the source computes. *)

Module Spec.

(** "first non-empty match wins": the first truthy value of a list, the
    empty string when there is none. *)
Definition first_nonempty (l : list value) : value :=
  match find truthy l with
  | Some v => v
  | None => VStr ""
  end.

(** The last truthy value of a list. *)
Definition last_nonempty (l : list value) : value :=
  first_nonempty (rev l).

(** The values of the four casing variants, in the order in which they
    are checked. *)
Definition variant_values (config : obj) : list value :=
  map (fun i => js_and (obj_get "headers" config)
                       (prop_get (obj_get "headers" config) i))
      content_type_keys.

(** "its one-level shallow merge": the header keys of the base survive
    unless the override names them. *)
Definition headers_shallow_merge (base override : obj) : value :=
  VObject (assign (spread_of (obj_get "headers" base))
                  (spread_of (obj_get "headers" override))).

(** "last write wins per key": the value of [k] in the last fragment
    that has the key, or in the base when no fragment has it. *)
Definition last_write (k : string) (base : obj) (fragments : list value)
  : value :=
  match find (fun f => obj_has k (spread_of f)) (rev fragments) with
  | Some f => obj_get k (spread_of f)
  | None => obj_get k base
  end.

(** A leaf field: a value written as one form entry, a primitive or a
    file. *)
Definition is_leaf (v : value) : bool :=
  match v with
  | VUndefined | VBool _ | VNum _ | VStr _ | VFile _ => true
  | _ => false
  end.

(** Plain objects and arrays, nested to any depth, whose leaves are
    primitives other than [null], or files. *)
Fixpoint plain_tree (data : value) : bool :=
  match data with
  | VObject fields =>
      (fix all (es : obj) : bool :=
         match es with
         | [] => true
         | (_, item) :: r => (is_leaf item || plain_tree item) && all r
         end) fields
  | VArray items =>
      (fix all (l : list value) : bool :=
         match l with
         | [] => true
         | item :: r => (is_leaf item || plain_tree item) && all r
         end) items
  | _ => false
  end.

(** "one entry per leaf field of data, with nested keys flattened as
    outer[inner]". *)
Fixpoint flatten (key : string) (data : value) : obj :=
  match data with
  | VObject fields =>
      (fix go (es : obj) : obj :=
         match es with
         | [] => []
         | (i, item) :: r =>
             ((if is_leaf item then [(field_name key i, item)]
               else flatten (field_name key i) item) ++ go r)%list
         end) fields
  | VArray items =>
      (fix go (n : nat) (l : list value) : obj :=
         match l with
         | [] => []
         | item :: r =>
             ((if is_leaf item then [(field_name key (nat_to_string n), item)]
               else flatten (field_name key (nat_to_string n)) item)
              ++ go (S n) r)%list
         end) 0%nat items
  | _ => []
  end.

(** The number of leaf fields of a tree. *)
Fixpoint leaf_count (data : value) : nat :=
  match data with
  | VObject fields =>
      (fix go (es : obj) : nat :=
         match es with
         | [] => 0
         | (_, item) :: r =>
             ((if is_leaf item then 1 else leaf_count item) + go r)%nat
         end) fields
  | VArray items =>
      (fix go (l : list value) : nat :=
         match l with
         | [] => 0
         | item :: r =>
             ((if is_leaf item then 1 else leaf_count item) + go r)%nat
         end) items
  | _ => 0%nat
  end.

(** A content type the synthesizer knows. *)
Definition known_content_type (v : value) : bool :=
  String.eqb (to_str v) application_json
  || String.eqb (to_str v) application_form.

(** [s] occurs in [t]. *)
Definition occurs_in (s t : string) : Prop :=
  exists a b, t = a ++ s ++ b.


End Spec.

(** ** A platform to run the model on

    Concrete printers and transports, used to evaluate the definitions on
    examples.  The query-string printer writes the bracket notation of
    the specification without percent-encoding; the JSON printer escapes
    quotes and backslashes only. *)

Module Sample.

Fixpoint join (sep : string) (l : list string) : string :=
  match l with
  | [] => ""
  | x :: r =>
      match r with
      | [] => x
      | _ :: _ => x ++ sep ++ join sep r
      end
  end.

Definition qs (data : value) : string :=
  join "&"
       (map (fun kv => fst kv ++ "=" ++
                       match snd kv with
                       | VUndefined => ""
                       | v => to_str v
                       end)
            (Spec.flatten "" data)).

Definition quote : string := String (ascii_of_nat 34) EmptyString.

Fixpoint escape (s : string) : string :=
  match s with
  | EmptyString => EmptyString
  | String c r =>
      if ((nat_of_ascii c =? 34) || (nat_of_ascii c =? 92))%nat
      then String (ascii_of_nat 92) (String c (escape r))
      else String c (escape r)
  end.

Fixpoint json_text (v : value) : string :=
  match v with
  | VUndefined | VNull => "null"
  | VBool true => "true"
  | VBool false => "false"
  | VNum n => Z_to_string n
  | VStr s => quote ++ escape s ++ quote
  | VObject fields =>
      "{" ++
      join ","
        ((fix go (es : obj) : list string :=
            match es with
            | [] => []
            | (k, v) :: r =>
                match v with
                | VUndefined => go r
                | _ => (quote ++ escape k ++ quote ++ ":" ++ json_text v)
                         :: go r
                end
            end) fields)
      ++ "}"
  | VArray items =>
      "[" ++
      join ","
        ((fix go (l : list value) : list string :=
            match l with
            | [] => []
            | v :: r => json_text v :: go r
            end) items)
      ++ "]"
  | _ => "{}"
  end.

Definition JSON (data : value) : value :=
  match data with
  | VUndefined => VUndefined
  | _ => VStr (json_text data)
  end.

Definition prototype_call (name : string) (_ : value) : throws value :=
  if String.eqb name "toString" || String.eqb name "toLocaleString"
  then Ok (VStr "[object Undefined]")
  else Throw (TypeError "Cannot convert undefined or null to object").

Definition pad2 (n : Z) : string :=
  if (n <? 10)%Z then "0" ++ Z_to_string n else Z_to_string n.

Definition time_of_day (ms : Z) : string :=
  let s := ((ms / 1000) mod 86400)%Z in
  pad2 (s / 3600) ++ ":" ++ pad2 ((s / 60) mod 60) ++ ":" ++ pad2 (s mod 60)
  ++ " GMT+0000".

Definition seconds (ms : Z) : string :=
  let a := Z.abs ms in
  let sign := if (ms <? 0)%Z then "-" else "" in
  let f := (a mod 1000)%Z in
  sign ++ Z_to_string (a / 1000) ++
  (if (f =? 0)%Z then ""
   else if (f mod 100 =? 0)%Z then "." ++ Z_to_string (f / 100)
   else if (f mod 10 =? 0)%Z then "." ++ pad2 (f / 10)
   else "." ++ (if (f <? 100)%Z then "0" else "") ++ pad2 f).

#[export] Instance platform : Platform := {|
  qs_stringify := qs;
  JSON_stringify := JSON;
  Object_prototype_call := prototype_call;
  toTimeString := time_of_day;
  seconds_to_string := seconds;
  setTimeout_clamp := fun _ => 1%N
|}.

(** A world whose transport behaves as [f] whatever it is asked and
    reacts to an abort as [a], and whose clock advances with the time of
    the call. *)
Definition world (f : fetching) (a : option value) : World := {|
  fetch := fun _ _ => f;
  on_abort := a;
  clock := fun t => (1700000000000 + Z.of_N t)%Z
|}.

(** A response whose body decodes to [v] after 5 milliseconds. *)
Definition response (v : value) : Response := {|
  json := Settled 5 (Resolved v);
  member_call := fun name =>
    if existsb (String.eqb name)
               ["arrayBuffer"; "blob"; "formData"; "json"; "text"]
    then Ok (VHost "Promise")
    else Throw (TypeError "response[responseType] is not a function")
|}.

(** The facade built with [host] and [apiPath]. *)
Definition facade (W : World) (h a : string) : FetchRequest :=
  new_FetchRequest
    (Some {| init_defaultConfig := None; init_host := Some h;
             init_apiPath := Some a; init_interceptorsRequest := None;
             init_interceptorsResponse := None;
             init_requestFunction := None |}).

(** The error of an aborted [fetch]. *)
Definition AbortError : value :=
  VError "AbortError" "signal is aborted without reason".

(** A transport that never answers and ignores its signal; one that
    never answers and rejects when aborted; one that answers with a JSON
    body after 20 milliseconds. *)
Definition silent : World := world Never None.

Definition native : World := world Never (Some AbortError).

Definition answering (v : value) : World :=
  world (Fulfils 20 (IsResponse (response v))) (Some AbortError).

(** The facade made by [new FetchRequest()] where the transport never
    answers. *)
Definition this_silent : FetchRequest :=
  @new_FetchRequest platform silent None.

Definition this_native : FetchRequest :=
  @new_FetchRequest platform native None.

(** [get('/test', { id: 1000, f: { a: 'x' } }, 'tag')] *)
Definition get_test : obj :=
  createRequest_config (VStr "GET") VUndefined (VStr "/test")
    (VObject [("id", VNum 1000); ("f", VObject [("a", VStr "x")])])
    [VStr "tag"].

(** A [POST] whose headers hold a content type that is not in the
    table. *)
Definition post_plain : obj :=
  [("method", VStr "POST");
   ("headers", VObject [("Content-Type", VStr "text/plain")]);
   ("data", VObject [("a", VStr "1")])].

(** A [POST] whose headers define two casing variants. *)
Definition post_two_types : obj :=
  [("method", VStr "POST");
   ("headers", VObject [("Content-Type", VStr application_json);
                        ("content-type", VStr application_form)]);
   ("data", VObject [("a", VNum 1)])].

(** The configuration of an upload. *)
Definition post_upload : obj :=
  [("method", VStr "POST");
   ("headers", VObject []);
   ("data", VObject [("name", VStr "n");
                     ("file", VFile "p.png");
                     ("meta", VObject [("tags", VArray [VStr "a"; VNum 2])])])].

(** A [defaultConfig] that sets one header. *)
Definition token_headers : obj :=
  [("headers", VObject [("X-Token", VStr "t")])].

Definition with_token : TFetchRequestConfig :=
  {| init_defaultConfig := Some token_headers; init_host := None;
     init_apiPath := None; init_interceptorsRequest := None;
     init_interceptorsResponse := None; init_requestFunction := None |}.

End Sample.

(** ** Notions used to state what the code does *)

Module Notions.

(** Following plain objects and arrays from [data], the form-field writer
    meets [null] (or [data] itself is [null] or [undefined]). *)
Fixpoint hits_null (data : value) : bool :=
  match data with
  | VUndefined | VNull => true
  | VObject fields =>
      (fix any (es : obj) : bool :=
         match es with
         | [] => false
         | (_, item) :: r =>
             (typeof_object item && negb (is_File item) && hits_null item)
             || any r
         end) fields
  | VArray items =>
      (fix any (l : list value) : bool :=
         match l with
         | [] => false
         | item :: r =>
             (typeof_object item && negb (is_File item) && hits_null item)
             || any r
         end) items
  | _ => false
  end.

(** The entries the form-field writer appends for [data] under [key]. *)
Fixpoint written (key : string) (data : value) : obj :=
  match data with
  | VObject fields =>
      (fix go (es : obj) : obj :=
         match es with
         | [] => []
         | (i, item) :: r =>
             ((if typeof_object item && negb (is_File item)
               then written (field_name key i) item
               else [(field_name key i, item)]) ++ go r)%list
         end) fields
  | VArray items =>
      (fix go (n : nat) (l : list value) : obj :=
         match l with
         | [] => []
         | item :: r =>
             ((if typeof_object item && negb (is_File item)
               then written (field_name key (nat_to_string n)) item
               else [(field_name key (nat_to_string n), item)])
              ++ go (S n) r)%list
         end) 0%nat items
  | VStr s =>
      map (fun e => (field_name key (fst e), snd e))
          (index_entries 0 (chars s))
  | _ => []
  end.

(** No fragment of a list names the key [k]. *)
Definition none_names (k : string) (fragments : list value) : bool :=
  forallb (fun f => negb (obj_has k (spread_of (labelToConfig f)))) fragments.

(** A list of console calls that opens one group, prints [n] lines and
    closes the group. *)
Definition one_group (n : nat) (calls : list console_call) : Prop :=
  exists title lines,
    calls = (Console_groupCollapsed title :: map Console_log lines
             ++ [Console_groupEnd])%list
    /\ length lines = n.

End Notions.

(** ** Inputs for the examples *)

Module Cases.

Import Sample.

(** A transport that answers with a JSON body after 20 milliseconds and
    a body that takes 6000 more. *)
Definition slow_response (v : value) : Response :=
  {| json := Settled 6000 (Resolved v);
     member_call := member_call (response v) |}.

Definition slow_body (v : value) : World :=
  world (Fulfils 20 (IsResponse (slow_response v))) (Some AbortError).

(** A transport whose response body is not JSON. *)
Definition html_response : Response :=
  {| json := Settled 5 (Rejected (VError "SyntaxError" "Unexpected token <"));
     member_call := member_call (response VNull) |}.

Definition bad_json : World :=
  world (Fulfils 20 (IsResponse html_response)) (Some AbortError).


(** A transport that resolves with something that is not a [Response]. *)
Definition odd_transport : World :=
  world (Fulfils 20 (NotResponse (VStr "ok"))) (Some AbortError).

(** [post('/items', { a: 1 })] and the like. *)
Definition post_items : obj :=
  createRequest_config (VStr "POST") VUndefined (VStr "/items")
    (VObject [("a", VNum 1)]) [].

Definition post_as_text : obj :=
  createRequest_config (VStr "POST") VUndefined (VStr "/items")
    (VObject [("a", VNum 1)]) [VObject [("responseType", VStr "text")]].

Definition post_as_nonsense : obj :=
  createRequest_config (VStr "POST") VUndefined (VStr "/items")
    (VObject [("a", VNum 1)]) [VObject [("responseType", VStr "xml")]].

(** [upload('/files', { file: File }, 'avatar')] *)
Definition upload_file : obj :=
  createRequest_config (VStr "POST") (VObject [("headers", VObject [])])
    (VStr "/files") (VObject [("file", VFile "a.png")]) [VStr "avatar"].

(** [upload('/files')], without data. *)
Definition upload_nothing : obj :=
  createRequest_config (VStr "POST") (VObject [("headers", VObject [])])
    (VStr "/files") VUndefined [].

(** A facade with a host, a default timeout of 3000 and a token header. *)
Definition configured : TFetchRequestConfig :=
  {| init_defaultConfig :=
       Some [("timeout", VNum 3000);
             ("headers", VObject [("X-Token", VStr "t")])];
     init_host := Some "http://localhost";
     init_apiPath := Some "/api";
     init_interceptorsRequest := None;
     init_interceptorsResponse := None;
     init_requestFunction := None |}.

(** The configuration the transport is called with. *)
Definition sent (this : FetchRequest) (configs : obj) : obj :=
  obj_set "signal" (VHost "AbortSignal")
          (@toBody_effect platform (request_config this configs)).

(** A facade whose response interceptor throws. *)
Definition throwing : TFetchRequestConfig :=
  {| init_defaultConfig := None;
     init_host := None;
     init_apiPath := None;
     init_interceptorsRequest := None;
     init_interceptorsResponse :=
       Some (fun _ _ => Throw (VError "Error" "interceptor"));
     init_requestFunction := None |}.

End Cases.

(** ** Objects: lookup after update *)

Section ObjectFacts.

Lemma obj_get_set_same (k : string) (v : value) (o : obj) :
  obj_get k (obj_set k v o) = v.
Proof.
  induction o as [|[k' v'] o IH]; simpl.
  - now rewrite String.eqb_refl.
  - destruct (String.eqb k k') eqn:E; simpl;
      rewrite ?E, ?String.eqb_refl; auto.
Qed.

Lemma obj_get_set_other (k k' : string) (v : value) (o : obj) :
  k <> k' -> obj_get k (obj_set k' v o) = obj_get k o.
Proof.
  intros Hne. apply String.eqb_neq in Hne.
  induction o as [|[k0 v0] o IH]; simpl.
  - now rewrite Hne.
  - destruct (String.eqb k' k0) eqn:E; simpl.
    + apply String.eqb_eq in E; subst k0. now rewrite Hne.
    + now rewrite IH.
Qed.

Lemma obj_has_set_same (k : string) (v : value) (o : obj) :
  obj_has k (obj_set k v o) = true.
Proof.
  induction o as [|[k' v'] o IH]; simpl.
  - now rewrite String.eqb_refl.
  - destruct (String.eqb k k') eqn:E; simpl;
      rewrite ?E, ?String.eqb_refl; auto.
Qed.

Lemma obj_has_set_other (k k' : string) (v : value) (o : obj) :
  k <> k' -> obj_has k (obj_set k' v o) = obj_has k o.
Proof.
  intros Hne. apply String.eqb_neq in Hne.
  induction o as [|[k0 v0] o IH]; simpl.
  - now rewrite Hne.
  - destruct (String.eqb k' k0) eqn:E; simpl.
    + apply String.eqb_eq in E; subst k0. now rewrite Hne.
    + now rewrite IH.
Qed.

Lemma obj_has_keys (k : string) (o : obj) :
  obj_has k o = existsb (String.eqb k) (map fst o).
Proof.
  induction o as [|[k' v'] o IH]; simpl; auto.
  destruct (String.eqb k k'); auto.
Qed.

Lemma obj_get_absent (k : string) (o : obj) :
  obj_has k o = false -> obj_get k o = VUndefined.
Proof.
  induction o as [|[k' v'] o IH]; simpl; auto.
  destruct (String.eqb k k'); auto; discriminate.
Qed.

(** Writing [g k'] under every key [k'] of a list. *)
Lemma obj_get_fold_set (g : string -> value) (ks : list string) :
  forall (t : obj) (k : string),
    obj_get k (fold_left (fun t k' => obj_set k' (g k') t) ks t)
    = if existsb (String.eqb k) ks then g k else obj_get k t.
Proof.
  induction ks as [|k0 ks IH]; intros t k; simpl; auto.
  rewrite IH. destruct (existsb (String.eqb k) ks).
  - now rewrite orb_true_r.
  - rewrite orb_false_r. destruct (String.eqb k k0) eqn:E.
    + apply String.eqb_eq in E; subst. apply obj_get_set_same.
    + apply String.eqb_neq in E. now apply obj_get_set_other.
Qed.

Lemma obj_has_fold_set (g : string -> value) (ks : list string) :
  forall (t : obj) (k : string),
    obj_has k (fold_left (fun t k' => obj_set k' (g k') t) ks t)
    = existsb (String.eqb k) ks || obj_has k t.
Proof.
  induction ks as [|k0 ks IH]; intros t k; simpl; auto.
  rewrite IH. destruct (String.eqb k k0) eqn:E; simpl.
  - apply String.eqb_eq in E; subst.
    rewrite obj_has_set_same. now rewrite orb_true_r.
  - apply String.eqb_neq in E. now rewrite obj_has_set_other.
Qed.

(** The layering step: the override's value where the override has the
    key, the base's value elsewhere. *)
Lemma obj_get_assign (base override : obj) (k : string) :
  obj_get k (assign base override)
  = if obj_has k override then obj_get k override else obj_get k base.
Proof.
  unfold assign. rewrite obj_get_fold_set. now rewrite obj_has_keys.
Qed.

Lemma obj_has_assign (base override : obj) (k : string) :
  obj_has k (assign base override) = obj_has k override || obj_has k base.
Proof.
  unfold assign. rewrite obj_has_fold_set.
  now rewrite (obj_has_keys k override).
Qed.

Lemma obj_has_remove_same (k : string) (o : obj) :
  obj_has k (obj_remove k o) = false.
Proof.
  induction o as [|[k' v'] o IH]; simpl; auto.
  destruct (String.eqb k k') eqn:E; simpl; rewrite ?E; auto.
Qed.

Lemma obj_get_remove_other (k k' : string) (o : obj) :
  k <> k' -> obj_get k (obj_remove k' o) = obj_get k o.
Proof.
  intros Hne. apply String.eqb_neq in Hne.
  induction o as [|[k0 v0] o IH]; simpl; auto.
  destruct (String.eqb k' k0) eqn:E; simpl.
  - apply String.eqb_eq in E; subst k0. now rewrite Hne.
  - now rewrite IH.
Qed.

Lemma obj_has_remove_other (k k' : string) (o : obj) :
  k <> k' -> obj_has k (obj_remove k' o) = obj_has k o.
Proof.
  intros Hne. apply String.eqb_neq in Hne.
  induction o as [|[k0 v0] o IH]; simpl; auto.
  destruct (String.eqb k' k0) eqn:E; simpl.
  - apply String.eqb_eq in E; subst k0. now rewrite Hne.
  - now rewrite IH.
Qed.

Lemma fold_left_map_list {A B C} (f : A -> B -> A) (g : C -> B)
  (l : list C) :
  forall a, fold_left f (map g l) a = fold_left (fun a x => f a (g x)) l a.
Proof.
  induction l as [|x l IH]; intros a; simpl; auto.
Qed.

Lemma find_append {A} (f : A -> bool) (l1 l2 : list A) :
  find f (l1 ++ l2)
  = match find f l1 with
    | Some x => Some x
    | None => find f l2
    end.
Proof.
  induction l1 as [|x l1 IH]; simpl; auto.
  destruct (f x); auto.
Qed.

(** Last write wins across the sources of [Object.assign]. *)
Lemma obj_get_Object_assign (k : string) (sources : list value) :
  forall base : obj,
    obj_get k (Object_assign base sources) = Spec.last_write k base sources.
Proof.
  unfold Object_assign, Spec.last_write.
  induction sources as [|s sources IH] using rev_ind; intros base.
  - reflexivity.
  - rewrite fold_left_app, rev_app_distr. simpl.
    rewrite obj_get_assign.
    destruct (obj_has k (spread_of s)); auto.
Qed.

Lemma prefix_app (p a b : string) :
  String.prefix p a = true -> String.prefix p (a ++ b) = true.
Proof.
  revert a; induction p as [|c p IH]; intros a H.
  - destruct (a ++ b); reflexivity.
  - destruct a as [|c' a]; simpl in *; try discriminate.
    destruct (Ascii.ascii_dec c c'); try discriminate. now apply IH.
Qed.

End ObjectFacts.

(** ** Configuration merger *)

Section Merger.

Context {P : Platform} {W : World}.

Lemma obj_get_request_config (this : FetchRequest) (configs : obj)
  (k : string) :
  obj_get k (request_config this configs)
  = if String.eqb k "url" then
      if obj_has "url" (defaultConfig this)
      then obj_get "url" (defaultConfig this)
      else request_url this configs
    else if obj_has k configs then obj_get k configs
         else obj_get k (defaultConfig this).
Proof.
  unfold request_config. rewrite obj_get_assign.
  destruct (String.eqb k "url") eqn:E.
  - apply String.eqb_eq in E; subst k.
    rewrite obj_has_remove_same, obj_get_assign.
    destruct (obj_has "url" (defaultConfig this)); reflexivity.
  - assert (Hne : k <> "url") by now apply String.eqb_neq.
    rewrite obj_has_remove_other, obj_get_remove_other by assumption.
    destruct (obj_has k configs); auto.
    rewrite obj_get_assign.
    destruct (obj_has k (defaultConfig this)) eqn:Hd; auto.
    simpl. rewrite E. symmetry. now apply obj_get_absent.
Qed.

(** C4 (as amended).  At both layering steps, the [Object.assign] of the
    constructor and the spread of [request], every key, [headers]
    included, is overwritten wholesale: the result holds the override's
    value under each key the override has, and the base's value under
    the others.  The override's [headers] object therefore replaces the
    base's; nothing of the base's headers is merged into it. *)
Theorem layering_overwrites_wholesale
  (c : TFetchRequestConfig) (this : FetchRequest) (configs : obj)
  (k : string) :
  let override := or_else (init_defaultConfig c) [] in
  obj_get k (defaultConfig (new_FetchRequest (Some c)))
  = (if obj_has k override then obj_get k override
     else obj_get k initial_defaultConfig)
  /\ obj_get "headers" (request_config this configs)
     = (if obj_has "headers" configs then obj_get "headers" configs
        else obj_get "headers" (defaultConfig this))
  /\ obj_get k (request_config this configs)
     = (if String.eqb k "url" then
          if obj_has "url" (defaultConfig this)
          then obj_get "url" (defaultConfig this)
          else request_url this configs
        else if obj_has k configs then obj_get k configs
             else obj_get k (defaultConfig this)).
Proof.
  intros override. split; [|split].
  - simpl. apply obj_get_assign.
  - now rewrite obj_get_request_config.
  - apply obj_get_request_config.
Qed.

(** The object a function made by [createRequest] builds: the
    left-to-right merge of [{method, url, data}] with the fragments, in
    which the last fragment that has a key wins. *)
Lemma createRequest_config_last_write
  (method url data : value) (args : list value) (k : string) :
  let base := [("method", method); ("url", url); ("data", data)] in
  createRequest_config method VUndefined url data args
  = fold_left (fun acc f => assign acc (spread_of (labelToConfig f)))
              args base
  /\ obj_get k (createRequest_config method VUndefined url data args)
     = Spec.last_write k base (map labelToConfig args)
  /\ (forall configs : value,
        obj_get k (createRequest_config method configs url data args)
        = Spec.last_write k base (configs :: map labelToConfig args))
  /\ (forall (configs : value) (f : obj),
        obj_get k (createRequest_config method configs url data
                     (args ++ [VObject f]))
        = if obj_has k f then obj_get k f
          else obj_get k (createRequest_config method configs url data args))
  /\ obj_get "label"
       (createRequest_config method VUndefined url data
          (args ++ [VObject [("label", VStr "A")];
                    VObject [("label", VStr "B")]]))
     = VStr "B"
  /\ (forall (configs : value) (tag : string) (rest : list value),
        createRequest_config method configs url data
          (args ++ VStr tag :: rest)
        = createRequest_config method configs url data
            (args ++ VObject [("label", VStr tag)] :: rest)).
Proof.
  intros base. unfold createRequest_config. fold base.
  split; [|split; [|split; [|split; [|split]]]].
  - unfold Object_assign. simpl. now rewrite fold_left_map_list.
  - rewrite obj_get_Object_assign. unfold Spec.last_write. simpl.
    rewrite find_append.
    destruct (find _ (rev (map labelToConfig args))); reflexivity.
  - intros configs. apply obj_get_Object_assign.
  - intros configs f. unfold Object_assign. simpl.
    rewrite map_app, fold_left_app. simpl. apply obj_get_assign.
  - unfold Object_assign.
    change (VUndefined :: map labelToConfig ?l)
      with (map labelToConfig (VUndefined :: l)).
    rewrite app_comm_cons, map_app, fold_left_app.
    cbn [map fold_left labelToConfig]. now rewrite obj_get_assign.
  - intros configs tag rest. now rewrite !map_app.
Qed.

(** C5.  Every verb call [verb(url, data, f1, ..., fn)] is [request]
    applied to the left-to-right merge of [{method, url, data}] with the
    fragments, a bare string standing for [{label: <string>}]; under
    every key the last fragment that has the key wins.  So a fragment's
    [url] or [data] replaces the positional one, the label after
    [{label:'A'}], [{label:'B'}] is ['B'], and a call with a string
    fragment is the call with the label object in its place.  A function
    made with a pre-seeded fragment ([upload]) layers that fragment
    first, before the caller's. *)
Theorem verb_configuration_last_write_wins
  (this : FetchRequest) (method url data : value) (args : list value)
  (k : string) :
  let base := [("method", method); ("url", url); ("data", data)] in
  let merged := fun start : obj =>
    fold_left (fun acc f => assign acc (spread_of (labelToConfig f)))
              args start in
  createRequest this method VUndefined url data args
  = request this (merged base)
  /\ get this url data args
     = request this
         (merged [("method", VStr "GET"); ("url", url); ("data", data)])
  /\ post this url data args
     = request this
         (merged [("method", VStr "POST"); ("url", url); ("data", data)])
  /\ put this url data args
     = request this
         (merged [("method", VStr "PUT"); ("url", url); ("data", data)])
  /\ patch this url data args
     = request this
         (merged [("method", VStr "PATCH"); ("url", url); ("data", data)])
  /\ del this url data args
     = request this
         (merged [("method", VStr "DELETE"); ("url", url); ("data", data)])
  /\ upload this url data args
     = request this
         (merged [("method", VStr "POST"); ("url", url); ("data", data);
                  ("headers", VObject [])])
  /\ obj_get k (merged base) = Spec.last_write k base (map labelToConfig args)
  /\ (forall (configs : value) (f : obj),
        createRequest this method configs url data (args ++ [VObject f])
        = request this
            (createRequest_config method configs url data
               (args ++ [VObject f]))
        /\ obj_get k (createRequest_config method configs url data
                        (args ++ [VObject f]))
           = if obj_has k f then obj_get k f
             else obj_get k
                    (createRequest_config method configs url data args))
  /\ (exists config,
        createRequest this method VUndefined url data
          (args ++ [VObject [("label", VStr "A")];
                    VObject [("label", VStr "B")]])
        = request this config
        /\ obj_get "label" config = VStr "B")
  /\ (forall (configs : value) (tag : string) (rest : list value),
        createRequest this method configs url data
          (args ++ VStr tag :: rest)
        = createRequest this method configs url data
            (args ++ VObject [("label", VStr tag)] :: rest))
  /\ (forall configs : value,
        createRequest this method configs url data args
        = request this (createRequest_config method configs url data args)
        /\ obj_get k (createRequest_config method configs url data args)
           = Spec.last_write k base (configs :: map labelToConfig args)).
Proof.
  intros base merged.
  assert (Hverb : forall m : value,
             createRequest_config m VUndefined url data args
             = merged [("method", m); ("url", url); ("data", data)]).
  { intros m.
    exact (proj1 (createRequest_config_last_write m url data args k)). }
  destruct (createRequest_config_last_write method url data args k)
    as (H1 & H2 & H3 & H4 & H5 & H6).
  repeat match goal with |- _ /\ _ => split end.
  - unfold createRequest. now rewrite Hverb.
  - unfold get, createRequest. now rewrite Hverb.
  - unfold post, createRequest. now rewrite Hverb.
  - unfold put, createRequest. now rewrite Hverb.
  - unfold patch, createRequest. now rewrite Hverb.
  - unfold del, createRequest. now rewrite Hverb.
  - unfold upload, createRequest. f_equal.
    unfold createRequest_config, Object_assign. cbn [fold_left].
    unfold merged. now rewrite fold_left_map_list.
  - unfold merged, base. rewrite <- Hverb. exact H2.
  - intros configs f. split; [reflexivity|apply H4].
  - eexists. split; [reflexivity|exact H5].
  - intros configs tag rest. unfold createRequest. now rewrite H6.
  - intros configs. split; [reflexivity|apply H3].
Qed.

(** C2 (as amended).  On a facade whose [defaultConfig] defines no [url],
    the merged url is the incoming url (the empty string when there is
    none) if its text starts with ['http'], and otherwise [host +
    apiPath] prepended to it, once.  It starts with ['http'] exactly when
    the incoming url or the prefixed one does, in particular whenever
    [host + apiPath] does.  For a verb call the incoming url is the one
    left by the layering of all fragments, so the prefix is applied
    after the layering. *)
Theorem url_prefixed_once_after_layering
  (this : FetchRequest) (configs : obj) :
  obj_has "url" (defaultConfig this) = false ->
  let incoming := match obj_get "url" configs with
                  | VUndefined => VStr ""
                  | u => u
                  end in
  let final := obj_get "url" (request_config this configs) in
  final = (if String.prefix "http" (to_str incoming) then incoming
           else VStr (baseURL this ++ to_str incoming))
  /\ String.prefix "http" (to_str final)
     = String.prefix "http" (to_str incoming)
       || String.prefix "http" (baseURL this ++ to_str incoming)
  /\ (String.prefix "http" (baseURL this) = true ->
      String.prefix "http" (to_str final) = true)
  /\ (forall (method cfgs url data : value) (args : list value),
        obj_get "url" (createRequest_config method cfgs url data args)
        = Spec.last_write "url"
            [("method", method); ("url", url); ("data", data)]
            (cfgs :: map labelToConfig args)).
Proof.
  intros Hdc incoming final.
  assert (Hfinal : final = if String.prefix "http" (to_str incoming)
                           then incoming
                           else VStr (baseURL this ++ to_str incoming)).
  { unfold final. rewrite obj_get_request_config. simpl. now rewrite Hdc. }
  split; [exact Hfinal|]. split; [|split].
  - rewrite Hfinal.
    destruct (String.prefix "http" (to_str incoming)) eqn:E; simpl; auto.
  - intros Hbase. rewrite Hfinal.
    destruct (String.prefix "http" (to_str incoming)) eqn:E; simpl; auto.
    now apply prefix_app.
  - intros. apply obj_get_Object_assign.
Qed.

Lemma fold_left_js_or (l : list value) :
  forall d : value,
    fold_left (fun c v => js_or v c) l d
    = match find truthy (rev l) with
      | Some v => v
      | None => d
      end.
Proof.
  induction l as [|x l IH] using rev_ind; intros d.
  - reflexivity.
  - rewrite fold_left_app, rev_app_distr. simpl. unfold js_or at 1.
    destruct (truthy x); auto.
Qed.

(** C3 (as amended).  The content type the body synthesizer uses is the
    LAST truthy value found when the variants are read in the order
    [Content-Type], [Content-type], [content-Type], [content-type], and
    the empty string when none is truthy: each later variant that is set
    replaces what the earlier ones gave. *)
Theorem contentType_last_variant_wins (config : obj) :
  contentType config = Spec.last_nonempty (Spec.variant_values config).
Proof.
  unfold contentType, Spec.last_nonempty, Spec.first_nonempty,
    Spec.variant_values.
  rewrite <- (fold_left_map_list (fun c v => js_or v c)
                (fun i => js_and (obj_get "headers" config)
                                 (prop_get (obj_get "headers" config) i))).
  apply fold_left_js_or.
Qed.

End Merger.

(** ** Body synthesizer *)

Section BodySynthesizer.

Context {P : Platform}.

(** The test of the source's loop is the negation of "leaf". *)
Lemma is_leaf_test (item : value) :
  typeof_object item && negb (is_File item) = negb (Spec.is_leaf item).
Proof. destruct item; reflexivity. Qed.

(** The loop of [getFormData] over an array, from index [n] on. *)
Lemma getFormData_loop_index (key : string) (items : list value) :
  forall (n : nat) (body : obj),
    (fix loop (n : nat) (l : list value) (body : obj) {struct l}
       : throws obj :=
       match l with
       | [] => Ok body
       | item :: l' =>
           let k := field_name key (nat_to_string n) in
           if typeof_object item && negb (is_File item)
           then match getFormData_body item k body with
                | Ok body' => loop (S n) l' body'
                | Throw e => Throw e
                end
           else loop (S n) l' (body ++ [(k, item)])%list
       end) n items body
    = getFormData_loop (index_entries n items) key body.
Proof.
  induction items as [|item items IH]; intros n body; simpl; auto.
  destruct (typeof_object item && negb (is_File item)).
  - unfold bind. destruct (getFormData_body _ _ _); auto.
  - apply IH.
Qed.

Lemma getFormData_loop_fields (key : string) (fields : obj) :
  forall body : obj,
    (fix loop (es : obj) (body : obj) {struct es} : throws obj :=
       match es with
       | [] => Ok body
       | (i, item) :: es' =>
           let k := field_name key i in
           if typeof_object item && negb (is_File item)
           then match getFormData_body item k body with
                | Ok body' => loop es' body'
                | Throw e => Throw e
                end
           else loop es' (body ++ [(k, item)])%list
       end) fields body
    = getFormData_loop fields key body.
Proof.
  induction fields as [|[i item] fields IH]; intros body; simpl; auto.
  destruct (typeof_object item && negb (is_File item)).
  - unfold bind. destruct (getFormData_body _ _ _); auto.
  - apply IH.
Qed.

Lemma getFormData_loop_strings (key : string) (es : obj) :
  Forall (fun kv => typeof_object (snd kv) = false) es ->
  forall body : obj,
    getFormData_loop es key body
    = Ok (body ++ map (fun e => (field_name key (fst e), snd e)) es)%list.
Proof.
  induction 1 as [|[i item] es Hitem _ IH]; intros body; simpl in *.
  - now rewrite app_nil_r.
  - rewrite Hitem. simpl. rewrite IH, <- app_assoc. reflexivity.
Qed.

Lemma chars_not_objects (s : string) :
  forall n, Forall (fun kv => typeof_object (snd kv) = false)
                   (index_entries n (chars s)).
Proof.
  induction s as [|c s IH]; intros n; simpl; constructor; auto.
Qed.

(** [getFormData] as the source writes it: unless [data] is a
    [FormData], one loop over [Object.entries(data)]. *)
Lemma getFormData_entries (data : value) (key : string) (body : obj) :
  is_FormData data = false ->
  getFormData_body data key body
  = (es <- Object_entries data ;; getFormData_loop es key body).
Proof.
  destruct data; intros H; try discriminate; try reflexivity.
  - simpl. symmetry. apply getFormData_loop_strings, chars_not_objects.
  - apply getFormData_loop_fields.
  - apply getFormData_loop_index.
Qed.

Lemma flatten_loop_fields (key : string) (fields : obj) :
  Forall (fun kv => forall key body,
            Spec.plain_tree (snd kv) = true ->
            getFormData_body (snd kv) key body
            = Ok (body ++ Spec.flatten key (snd kv))%list) fields ->
  Spec.plain_tree (VObject fields) = true ->
  forall body,
    getFormData_loop fields key body
    = Ok (body ++ Spec.flatten key (VObject fields))%list.
Proof.
  induction 1 as [|[i item] fields Hitem _ IH]; intros Hok body.
  - simpl. now rewrite app_nil_r.
  - simpl in Hok. apply andb_true_iff in Hok. destruct Hok as [Hi Hr].
    simpl. rewrite is_leaf_test.
    destruct (Spec.is_leaf item) eqn:L; simpl.
    + rewrite (IH Hr). simpl. now rewrite <- app_assoc.
    + simpl in Hi. rewrite (Hitem _ _ Hi). simpl.
      rewrite (IH Hr). simpl. now rewrite <- app_assoc.
Qed.

Lemma flatten_loop_index (key : string) (items : list value) :
  Forall (fun item => forall key body,
            Spec.plain_tree item = true ->
            getFormData_body item key body
            = Ok (body ++ Spec.flatten key item)%list) items ->
  Spec.plain_tree (VArray items) = true ->
  forall n body,
    getFormData_loop (index_entries n items) key body
    = Ok (body ++
          (fix go (n : nat) (l : list value) : obj :=
             match l with
             | [] => []
             | item :: r =>
                 ((if Spec.is_leaf item
                   then [(field_name key (nat_to_string n), item)]
                   else Spec.flatten (field_name key (nat_to_string n)) item)
                  ++ go (S n) r)%list
             end) n items)%list.
Proof.
  induction 1 as [|item items Hitem _ IH]; intros Hok n body.
  - simpl. now rewrite app_nil_r.
  - simpl in Hok. apply andb_true_iff in Hok. destruct Hok as [Hi Hr].
    simpl. rewrite is_leaf_test.
    destruct (Spec.is_leaf item) eqn:L; simpl.
    + rewrite (IH Hr). now rewrite <- app_assoc.
    + simpl in Hi. rewrite (Hitem _ _ Hi). simpl.
      rewrite (IH Hr). now rewrite <- app_assoc.
Qed.

(** On a plain tree the form-field writer appends the flattened leaves,
    in order, and does not throw. *)
Lemma getFormData_body_flatten (data : value) :
  forall (key : string) (body : obj),
    Spec.plain_tree data = true ->
    getFormData_body data key body
    = Ok (body ++ Spec.flatten key data)%list.
Proof.
  induction data using value_nested_ind; intros key body Hok;
    try discriminate.
  - rewrite getFormData_entries by reflexivity. simpl.
    now apply flatten_loop_fields.
  - rewrite getFormData_entries by reflexivity. simpl.
    now apply flatten_loop_index.
Qed.

Lemma flatten_length (data : value) :
  forall key : string,
    length (Spec.flatten key data) = Spec.leaf_count data.
Proof.
  induction data using value_nested_ind; intros key; try reflexivity.
  - simpl. induction H as [|[i item] fields Hitem _ IH]; simpl; auto.
    rewrite length_app, IH. f_equal.
    destruct (Spec.is_leaf item); auto.
  - simpl. generalize 0%nat at 1.
    induction H as [|item items Hitem _ IH]; intros n; simpl; auto.
    rewrite length_app, IH. f_equal.
    destruct (Spec.is_leaf item); auto.
Qed.

Lemma toBody_GET (config : obj) :
  strict_eq_str (obj_get "method" config) "GET" = true ->
  toBody config
  = Ok (if String.eqb (qs_stringify (obj_get "data" config)) "" then config
        else obj_set "url"
               (VStr (to_str (obj_get "url" config) ++ "?"
                      ++ qs_stringify (obj_get "data" config))) config).
Proof.
  intros H. unfold toBody. rewrite H.
  destruct (String.eqb (qs_stringify (obj_get "data" config)) "");
    reflexivity.
Qed.

Lemma falsy_not_known (v : value) :
  truthy v = false -> Spec.known_content_type v = false.
Proof.
  destruct v; simpl; try discriminate; try reflexivity.
  - destruct b; try discriminate; reflexivity.
  - intros H. apply negb_false_iff, Z.eqb_eq in H. subst. reflexivity.
  - intros H. apply negb_false_iff, String.eqb_eq in H. subst. reflexivity.
Qed.


(** C7 (as amended).  For a method other than ['GET'], when none of the
    four casing variants holds a truthy content type: if [data] is a tree
    of plain objects and arrays whose leaves are primitives other than
    [null], or files, [body] becomes a multipart payload with exactly one
    entry per leaf, in order, nested keys written [outer[inner]] and
    files kept as they are; if [data] is already a multipart payload,
    [body] is that payload itself. *)
Theorem toBody_multipart_fallback (config : obj) :
  strict_eq_str (obj_get "method" config) "GET" = false ->
  truthy (contentType config) = false ->
  let data := obj_get "data" config in
  (Spec.plain_tree data = true ->
   toBody config
   = Ok (obj_set "body" (VFormData (Spec.flatten "" data)) config)
   /\ length (Spec.flatten "" data) = Spec.leaf_count data)
  /\ (is_FormData data = true ->
      toBody config = Ok (obj_set "body" data config)).
Proof.
  intros Hm Hct data. unfold toBody. rewrite Hm, Hct. fold data.
  split.
  - intros Hok. split; [|apply flatten_length].
    unfold getFormData.
    assert (Hfd : is_FormData data = false)
      by (destruct data; try discriminate; reflexivity).
    rewrite Hfd, getFormData_body_flatten by assumption. reflexivity.
  - intros Hfd. unfold getFormData. rewrite Hfd. reflexivity.
Qed.

(** Whatever [toBody] returns is its argument with at most the field
    [url] (for ['GET']) or [body] (otherwise) written. *)
Lemma toBody_frame (config config' : obj) :
  toBody config = Ok config' ->
  let key := if strict_eq_str (obj_get "method" config) "GET"
             then "url" else "body" in
  (config' = config \/ exists v, config' = obj_set key v config)
  /\ (forall k, k <> key ->
        obj_get k config' = obj_get k config
        /\ obj_has k config' = obj_has k config).
Proof.
  intros H key.
  assert (Hset : forall v,
             config' = obj_set key v config ->
             (config' = config \/ exists v, config' = obj_set key v config)
             /\ (forall k, k <> key ->
                   obj_get k config' = obj_get k config
                   /\ obj_has k config' = obj_has k config)).
  { intros v ->. split; [right; now exists v|].
    intros k Hk. split.
    - now apply obj_get_set_other.
    - now apply obj_has_set_other. }
  destruct (strict_eq_str (obj_get "method" config) "GET") eqn:G;
    subst key.
  - rewrite toBody_GET in H by exact G. injection H as <-.
    destruct (String.eqb (qs_stringify (obj_get "data" config)) "").
    + split; auto.
    + eapply Hset; reflexivity.
  - unfold toBody in H. rewrite G in H.
    destruct (if truthy (contentType config)
              then applicationToBodyFun (to_str (contentType config))
              else Some getFormData) as [f|]; try discriminate.
    destruct (f (obj_get "data" config)) as [body|e] eqn:F;
      simpl in H; try discriminate.
    injection H as <-. eapply Hset; reflexivity.
Qed.

(** C10.  [toBody] changes at most one field of the configuration it is
    given: [url] when [method] is ['GET'] (and nothing at all when the
    query string is empty), [body] otherwise; every other key keeps its
    value and its presence.  What it returns is that same configuration.
    It returns for every ['GET'] configuration and for every other one
    whose content type is known. *)
Theorem toBody_changes_one_field (config : obj) :
  let is_get := strict_eq_str (obj_get "method" config) "GET" in
  let key := if is_get then "url" else "body" in
  (toBody_effect config = config
   \/ exists v, toBody_effect config = obj_set key v config)
  /\ (forall k, k <> key ->
        obj_get k (toBody_effect config) = obj_get k config
        /\ obj_has k (toBody_effect config) = obj_has k config)
  /\ (forall config', toBody config = Ok config' ->
        config' = toBody_effect config)
  /\ (is_get = true ->
      exists config',
        toBody config = Ok config'
        /\ (qs_stringify (obj_get "data" config) = "" -> config' = config))
  /\ (is_get = false ->
      Spec.known_content_type (contentType config) = true ->
      exists body, toBody config = Ok (obj_set "body" body config)).
Proof.
  intros is_get key.
  assert (Hframe :
            (toBody_effect config = config
             \/ exists v, toBody_effect config = obj_set key v config)
            /\ (forall k, k <> key ->
                  obj_get k (toBody_effect config) = obj_get k config
                  /\ obj_has k (toBody_effect config) = obj_has k config)).
  { unfold toBody_effect.
    destruct (toBody config) as [config'|e] eqn:H.
    - now apply toBody_frame.
    - split; auto. }
  destruct Hframe as [H1 H2].
  split; [exact H1|]. split; [exact H2|]. split; [|split].
  - intros config' H. unfold toBody_effect. now rewrite H.
  - intros G. eexists. split; [now apply toBody_GET|].
    intros ->. reflexivity.
  - intros G K. unfold toBody. fold is_get. rewrite G.
    destruct (truthy (contentType config)) eqn:T.
    + unfold Spec.known_content_type in K. unfold applicationToBodyFun.
      destruct (String.eqb (to_str (contentType config)) application_json).
      * eexists; reflexivity.
      * simpl in K. rewrite K. eexists; reflexivity.
    + rewrite falsy_not_known in K by exact T. discriminate.
Qed.

End BodySynthesizer.

(** ** Error classifier *)

Section ErrorClassifier.

Lemma prefix_occurs (s t : string) :
  String.prefix s t = true <-> exists b, t = s ++ b.
Proof.
  revert t; induction s as [|c s IH]; intros t.
  - split; [exists t; reflexivity|destruct t; reflexivity].
  - destruct t as [|c' t]; simpl.
    + split; [discriminate|intros [b Hb]; discriminate].
    + destruct (Ascii.ascii_dec c c') as [->|Hne].
      * rewrite IH. split; intros [b Hb]; exists b; congruence.
      * split; [discriminate|intros [b Hb]; congruence].
Qed.

(** [contains] decides occurrence. *)
Lemma contains_occurs (s t : string) :
  contains s t = true <-> Spec.occurs_in s t.
Proof.
  unfold Spec.occurs_in. split.
  - induction t as [|c t IH]; cbn [contains].
    + destruct (String.prefix s "") eqn:E; intros H; try discriminate.
      apply prefix_occurs in E. destruct E as [b Hb].
      now exists "", b.
    + destruct (String.prefix s (String c t)) eqn:E.
      * intros _. apply prefix_occurs in E. destruct E as [b Hb].
        now exists "", b.
      * intros H. destruct (IH H) as [a [b Hab]].
        exists (String c a), b. simpl. now rewrite Hab.
  - intros [a [b ->]]. induction a as [|c a IH].
    + assert (E : String.prefix s (s ++ b) = true)
        by (apply prefix_occurs; now exists b).
      change ("" ++ s ++ b) with (s ++ b).
      destruct (s ++ b); cbn [contains]; now rewrite E.
    + change (String c a ++ s ++ b) with (String c (a ++ s ++ b)).
      cbn [contains]. rewrite IH.
      now destruct (String.prefix s (String c (a ++ s ++ b))).
Qed.

Lemma erroToText_loop_first_match (error : string)
  (entries : list (string * string)) :
  (exists before key item after,
      entries = (before ++ (key, item) :: after)%list
      /\ Spec.occurs_in key error
      /\ (forall k, In k (map fst before) -> ~ Spec.occurs_in k error)
      /\ erroToText_loop entries error = item)
  \/ ((forall k, In k (map fst entries) -> ~ Spec.occurs_in k error)
      /\ erroToText_loop entries error = "其他错误").
Proof.
  induction entries as [|[key item] entries IH].
  - right. split; [intros k []|reflexivity].
  - simpl. unfold RegExp_test. destruct (contains key error) eqn:E.
    + left. exists [], key, item, entries.
      split; [reflexivity|]. split; [now apply contains_occurs|].
      split; [intros k []|reflexivity].
    + assert (Hno : ~ Spec.occurs_in key error).
      { intros H. apply contains_occurs in H. congruence. }
      destruct IH as [(before & k1 & i1 & after & -> & Hocc & Hbef & Hres)
                     |[Hnone Hres]].
      * left. exists ((key, item) :: before), k1, i1, after.
        split; [reflexivity|]. split; [exact Hocc|]. split; [|exact Hres].
        intros k [<-|Hin]; auto.
      * right. split; auto. intros k [<-|Hin]; auto.
Qed.

(** C8.  For every string, the classifier tries the patterns in the
    order ['timeout'], ['Network Error'], ['Failed to fetch'],
    ['request:fail'], each of which is a literal, and returns the
    category of the first one that occurs in the string; when none
    occurs it returns ['其他错误'].  Being a function of the model, it
    returns a string on every input. *)
Theorem erroToText_first_match_wins (error : string) :
  map fst erroText
  = ["timeout"; "Network Error"; "Failed to fetch"; "request:fail"]
  /\ forallb literal_pattern (map fst erroText) = true
  /\ ((exists before key item after,
         erroText = (before ++ (key, item) :: after)%list
         /\ Spec.occurs_in key error
         /\ (forall k, In k (map fst before) -> ~ Spec.occurs_in k error)
         /\ erroToText (VStr error) = item)
      \/ ((forall k, In k (map fst erroText) -> ~ Spec.occurs_in k error)
          /\ erroToText (VStr error) = "其他错误"))
  /\ erroToText (VStr error)
     = (if contains "timeout" error then "网络连接超时"
        else if contains "Network Error" error
                || contains "Failed to fetch" error
                || contains "request:fail" error
             then "请求地址错误"
             else "其他错误").
Proof.
  split; [reflexivity|]. split; [reflexivity|]. split.
  - apply erroToText_loop_first_match.
  - unfold erroToText, erroText. cbn [to_str erroToText_loop].
    unfold RegExp_test.
    destruct (contains "timeout" error); auto.
    destruct (contains "Network Error" error); auto.
    destruct (contains "Failed to fetch" error); auto.
Qed.

End ErrorClassifier.

(** ** Request facade *)

Section Facade.

Context {P : Platform} {W : World}.

Lemma promise_then_ext (p : promise) (f g : N -> value -> throws value) :
  (forall t v, f t v = g t v) -> promise_then p f = promise_then p g.
Proof.
  intros H. destruct p as [|t [v|e]]; simpl; auto. now rewrite H.
Qed.

Lemma request_core (this : FetchRequest) (configs : obj) :
  core_pipeline this ->
  request this configs
  = (c <- requestFunction_default (request_config this configs) ;;
     Ok {| call_config := call_config c;
           call_promise := settle (call_promise c);
           call_abort_at := call_abort_at c |}).
Proof.
  intros (Hreq & Hres & Hfun). unfold request.
  rewrite Hreq. simpl. rewrite Hfun.
  destruct (requestFunction_default (request_config this configs))
    as [c|e]; simpl; auto.
  do 2 f_equal.
  rewrite (promise_then_ext _ _
             (fun t res =>
                Ok (envelope (statisticalTime (clock 0) (clock t)) res)))
    by (intros; apply Hres).
  destruct (call_promise c) as [|t [v|e]]; reflexivity.
Qed.

Lemma race_timeout (f : fetching) (d : N) :
  settles_before f d = false -> race f d = (d, inr timer_rejection).
Proof.
  destruct f; simpl; intros H; try rewrite H; reflexivity.
Qed.

(** The call whose transport has not settled when the timer fires:
    the controller is aborted at that time and the call resolves with
    the error the race took, classified. *)
Lemma request_timer_fires (this : FetchRequest) (configs config1 : obj) :
  core_pipeline this ->
  toBody (request_config this configs) = Ok config1 ->
  let config := obj_set "signal" (VHost "AbortSignal") config1 in
  let delay := timer_delay (obj_get "timeout" config) in
  settles_before (fetch (obj_get "url" config) config) delay = false ->
  request this configs
  = Ok {| call_config := config;
          call_promise :=
            Settled delay
              (Resolved
                 (VObject
                    [("time", statisticalTime (clock 0) (clock delay));
                     ("error", timer_rejection);
                     ("errorText", VStr (erroToText timer_rejection))]));
          call_abort_at := Some delay |}.
Proof.
  intros Hcore Hbody config delay Hrace.
  rewrite request_core by assumption.
  unfold requestFunction_default. rewrite Hbody. simpl.
  fold config. fold delay. rewrite race_timeout by assumption.
  reflexivity.
Qed.

(** With a transport that does not react to the abort at once, the race
    rejects with ['request timeout'] and the call resolves with the
    timeout category. *)
Lemma timeout_when_abort_is_ignored
  (this : FetchRequest) (configs config1 : obj) :
  core_pipeline this ->
  on_abort = None ->
  toBody (request_config this configs) = Ok config1 ->
  let config := obj_set "signal" (VHost "AbortSignal") config1 in
  let delay := timer_delay (obj_get "timeout" config) in
  settles_before (fetch (obj_get "url" config) config) delay = false ->
  request this configs
  = Ok {| call_config := config;
          call_promise :=
            Settled delay
              (Resolved
                 (VObject
                    [("time", statisticalTime (clock 0) (clock delay));
                     ("error", VStr "request timeout");
                     ("errorText", VStr "网络连接超时")]));
          call_abort_at := Some delay |}
  /\ obj_get "signal" config = VHost "AbortSignal"
  /\ obj_get "timeout" config
     = obj_get "timeout" (request_config this configs).
Proof.
  intros Hcore Hdeaf Hbody config delay Hrace.
  split; [|split].
  - unfold config, delay.
    rewrite (request_timer_fires _ Hcore Hbody Hrace).
    unfold timer_rejection. rewrite Hdeaf. reflexivity.
  - apply obj_get_set_same.
  - unfold config. rewrite obj_get_set_other by discriminate.
    apply (toBody_frame _ Hbody).
    destruct (strict_eq_str _ _); discriminate.
Qed.

(** With a transport that rejects with [e] as soon as its signal is
    aborted, the race rejects with [e], and the call resolves with the
    category of [e]. *)
Lemma timeout_when_abort_rejects
  (this : FetchRequest) (configs config1 : obj) (e : value) :
  core_pipeline this ->
  on_abort = Some e ->
  toBody (request_config this configs) = Ok config1 ->
  let config := obj_set "signal" (VHost "AbortSignal") config1 in
  let delay := timer_delay (obj_get "timeout" config) in
  settles_before (fetch (obj_get "url" config) config) delay = false ->
  request this configs
  = Ok {| call_config := config;
          call_promise :=
            Settled delay
              (Resolved
                 (VObject
                    [("time", statisticalTime (clock 0) (clock delay));
                     ("error", e);
                     ("errorText", VStr (erroToText e))]));
          call_abort_at := Some delay |}.
Proof.
  intros Hcore Hloud Hbody config delay Hrace.
  unfold config, delay.
  rewrite (request_timer_fires _ Hcore Hbody Hrace).
  unfold timer_rejection. rewrite Hloud. reflexivity.
Qed.




End Facade.

(** ** The claims on concrete inputs *)

Section Examples.

Import Sample.

Lemma core_pipeline_default (P : Platform) (W : World) :
  core_pipeline (new_FetchRequest None).
Proof. repeat split. Qed.



(** C2, counterexample.  On a facade built without [host], the merged
    url of [get('/test')] does not start with ['http']. *)
Lemma default_host_leaves_url_relative :
  obj_get "url" (request_config this_silent get_test) = VStr "/test"
  /\ String.prefix "http"
       (to_str (obj_get "url" (request_config this_silent get_test)))
     = false.
Proof. split; reflexivity. Qed.

(** C2, witness. *)
Lemma url_prefixed_witness :
  obj_has "url" (defaultConfig (facade silent "http://localhost" "/api"))
  = false
  /\ obj_get "url"
       (request_config (facade silent "http://localhost" "/api") get_test)
     = VStr "http://localhost/api/test".
Proof.
  split; [reflexivity|].
  exact (proj1 (url_prefixed_once_after_layering
                  (facade silent "http://localhost" "/api") get_test
                  eq_refl)).
Defined.

(** C3, counterexample.  With [Content-Type] and [content-type] both
    set, the first non-empty variant is the JSON type but the synthesizer
    uses the form type, and encodes the body with it. *)
Lemma first_variant_does_not_win :
  strict_eq_str (obj_get "method" post_two_types) "GET" = false
  /\ Spec.first_nonempty (Spec.variant_values post_two_types)
     = VStr application_json
  /\ contentType post_two_types = VStr application_form
  /\ contentType post_two_types
     <> Spec.first_nonempty (Spec.variant_values post_two_types)
  /\ @toBody platform post_two_types
     = Ok (obj_set "body" (VStr "a=1") post_two_types).
Proof.
  repeat split; try reflexivity. discriminate.
Qed.

(** C4, counterexample.  A [defaultConfig] that provides [headers]
    replaces the built-in headers at construction: [Accept] is gone,
    where a shallow merge would keep it. *)
Lemma headers_replaced_not_merged :
  obj_get "headers"
    (defaultConfig (@new_FetchRequest platform silent (Some with_token)))
  = VObject [("X-Token", VStr "t")]
  /\ Spec.headers_shallow_merge initial_defaultConfig token_headers
     = VObject [("Accept", VStr application_json);
                ("Content-Type", VStr application_json);
                ("X-Token", VStr "t")]
  /\ obj_get "headers"
       (defaultConfig (@new_FetchRequest platform silent (Some with_token)))
     <> Spec.headers_shallow_merge initial_defaultConfig token_headers.
Proof.
  repeat split; try reflexivity. discriminate.
Qed.


(** C7, counterexample.  A content type that is not in the table is not
    answered by the multipart fallback: the call of the missing table
    entry throws. *)
Lemma unknown_content_type_throws :
  strict_eq_str (obj_get "method" post_plain) "GET" = false
  /\ Spec.known_content_type (contentType post_plain) = false
  /\ Spec.plain_tree (obj_get "data" post_plain) = true
  /\ @toBody platform post_plain
     = Throw (TypeError "toBodyFun is not a function").
Proof. repeat split. Qed.

(** C7, witness. *)
Lemma toBody_multipart_witness :
  strict_eq_str (obj_get "method" post_upload) "GET" = false
  /\ truthy (contentType post_upload) = false
  /\ Spec.plain_tree (obj_get "data" post_upload) = true
  /\ @toBody platform post_upload
     = Ok (obj_set "body"
             (VFormData [("name", VStr "n"); ("file", VFile "p.png");
                         ("meta[tags][0]", VStr "a");
                         ("meta[tags][1]", VNum 2)])
             post_upload).
Proof.
  split; [reflexivity|]. split; [reflexivity|]. split; [reflexivity|].
  exact (proj1 (proj1 (@toBody_multipart_fallback platform post_upload
                         eq_refl eq_refl) eq_refl)).
Defined.

(** What the multipart fallback does outside plain trees: a [null] leaf
    and a missing [data] make [Object.entries] throw; a host object that
    is not a [File] contributes no entry. *)
Lemma multipart_outside_plain_trees :
  getFormData (VObject [("a", VNull)])
  = Throw (TypeError "Cannot convert undefined or null to object")
  /\ getFormData VUndefined
     = Throw (TypeError "Cannot convert undefined or null to object")
  /\ getFormData (VObject [("a", VHost "Blob"); ("b", VStr "x")])
     = Ok (VFormData [("b", VStr "x")]).
Proof. repeat split. Qed.

(** C9, at the failing input.  [get('/test', ...)] on a facade made by
    [new FetchRequest()], with a transport that is still pending after
    5000 milliseconds and, as the Fetch standard has it, rejects with an
    [AbortError] when its signal is aborted: the timer fires and aborts
    the controller, but the race rejects with the [AbortError], not with
    ['request timeout'], and the call resolves with [errorText] equal to
    ['其他错误'], not to the timeout category. *)
Lemma native_fetch_timeout_is_other_error :
  @core_pipeline platform native this_native
  /\ exists c,
       @request platform native this_native get_test = Ok c
       /\ obj_get "timeout" (call_config c) = VNum 5000
       /\ obj_get "signal" (call_config c) = VHost "AbortSignal"
       /\ call_abort_at c = Some 5000%N
       /\ call_promise c
          = Settled 5000
              (Resolved
                 (VObject
                    [("time",
                      VObject [("start", VStr "22:13:20 GMT+0000");
                               ("end", VStr "22:13:25 GMT+0000");
                               ("total", VStr "5秒")]);
                     ("error", AbortError);
                     ("errorText", VStr "其他错误")]))
       /\ @erroToText AbortError <> "网络连接超时".
Proof.
  split; [apply core_pipeline_default|].
  eexists. split; [vm_compute; reflexivity|].
  repeat split. discriminate.
Qed.

(** The same call with a transport that ignores its signal resolves
    with the timeout category. *)
Lemma silent_transport_timeout :
  exists c,
    @request platform silent this_silent get_test = Ok c
    /\ call_abort_at c = Some 5000%N
    /\ call_promise c
       = Settled 5000
           (Resolved
              (VObject
                 [("time",
                   VObject [("start", VStr "22:13:20 GMT+0000");
                            ("end", VStr "22:13:25 GMT+0000");
                            ("total", VStr "5秒")]);
                  ("error", VStr "request timeout");
                  ("errorText", VStr "网络连接超时")])).
Proof.
  eexists. split.
  - exact (proj1 (@timeout_when_abort_is_ignored platform silent
                    this_silent get_test _
                    (core_pipeline_default platform silent)
                    eq_refl eq_refl eq_refl)).
  - split; reflexivity.
Qed.

(** C10, witness. *)
Lemma toBody_one_field_witness :
  strict_eq_str (obj_get "method" post_two_types) "GET" = false
  /\ Spec.known_content_type (contentType post_two_types) = true
  /\ (exists body,
        @toBody platform post_two_types
        = Ok (obj_set "body" body post_two_types))
  /\ forall k, k <> "body" ->
       obj_get k (@toBody_effect platform post_two_types)
       = obj_get k post_two_types
       /\ obj_has k (@toBody_effect platform post_two_types)
          = obj_has k post_two_types.
Proof.
  split; [reflexivity|]. split; [reflexivity|].
  destruct (@toBody_changes_one_field platform post_two_types)
    as (_ & Hframe & _ & _ & Hknown).
  split; [exact (Hknown eq_refl eq_refl)|exact Hframe].
Defined.

End Examples.

(** ** More on the configuration merger *)

Section MergerMore.

Context {P : Platform} {W : World}.

Lemma obj_set_unchanged (k : string) (v : value) (o : obj) :
  obj_has k o = true -> obj_get k o = v -> obj_set k v o = o.
Proof.
  induction o as [|[k' v'] o IH]; simpl; try discriminate.
  destruct (String.eqb k k') eqn:E; intros Hh Hg.
  - apply String.eqb_eq in E. now subst.
  - now rewrite IH.
Qed.

Lemma fold_set_unchanged (g : string -> value) (ks : list string) (o : obj) :
  (forall k, In k ks -> obj_has k o = true /\ obj_get k o = g k) ->
  fold_left (fun t k => obj_set k (g k) t) ks o = o.
Proof.
  induction ks as [|k ks IH]; intros H; simpl; auto.
  destruct (H k (or_introl eq_refl)) as [Hh Hg].
  rewrite obj_set_unchanged by assumption.
  apply IH. intros k' Hin. apply H. now right.
Qed.

Lemma obj_has_In (k : string) (o : obj) :
  obj_has k o = true <-> In k (map fst o).
Proof.
  induction o as [|[k' v'] o IH]; simpl.
  - split; [discriminate|tauto].
  - destruct (String.eqb k k') eqn:E.
    + apply String.eqb_eq in E. subst. tauto.
    + apply String.eqb_neq in E. rewrite IH. split; [tauto|].
      intros [H|H]; [congruence|exact H].
Qed.

Lemma assign_idempotent (t s : obj) :
  assign (assign t s) s = assign t s.
Proof.
  unfold assign at 1. apply fold_set_unchanged.
  intros k Hin. apply obj_has_In in Hin.
  rewrite obj_has_assign, obj_get_assign, Hin. auto.
Qed.

(** X1.  Merging the same fragment twice gives what merging it once
    gives, key order included: for [Object.assign] on two objects, and
    for a verb call whose last fragment is repeated. *)
Theorem merge_twice_is_merge_once
  (target source : obj) (method configs url data fragment : value)
  (args : list value) :
  assign (assign target source) source = assign target source
  /\ createRequest_config method configs url data
       (args ++ [fragment; fragment])
     = createRequest_config method configs url data (args ++ [fragment]).
Proof.
  split; [apply assign_idempotent|].
  unfold createRequest_config, Object_assign.
  rewrite !map_app, !app_comm_cons, !fold_left_app.
  cbn [map fold_left]. apply assign_idempotent.
Qed.

Lemma keys_obj_set (k : string) (v : value) (o : obj) :
  map fst (obj_set k v o)
  = if obj_has k o then map fst o else (map fst o ++ [k])%list.
Proof.
  induction o as [|[k' v'] o IH]; simpl; auto.
  destruct (String.eqb k k') eqn:E; simpl.
  - apply String.eqb_eq in E. now subst.
  - rewrite IH. now destruct (obj_has k o).
Qed.

Lemma keys_obj_set_extend (k : string) (v : value) (o : obj) :
  (exists extra, map fst (obj_set k v o) = (map fst o ++ extra)%list)
  /\ (NoDup (map fst o) -> NoDup (map fst (obj_set k v o))).
Proof.
  rewrite keys_obj_set. destruct (obj_has k o) eqn:E.
  - split; [exists []; now rewrite app_nil_r|auto].
  - split; [now exists [k]|].
    intros Hnd. apply NoDup_app; auto.
    + constructor; [intros []|constructor].
    + intros a Ha [<-|[]]. apply obj_has_In in Ha. congruence.
Qed.

Lemma keys_fold_set (g : string -> value) (ks : list string) :
  forall o : obj,
    (exists extra,
        map fst (fold_left (fun t k => obj_set k (g k) t) ks o)
        = (map fst o ++ extra)%list)
    /\ (NoDup (map fst o) ->
        NoDup (map fst (fold_left (fun t k => obj_set k (g k) t) ks o))).
Proof.
  induction ks as [|k ks IH]; intros o; simpl.
  - split; [exists []; now rewrite app_nil_r|auto].
  - destruct (IH (obj_set k (g k) o)) as [[e1 H1] H2].
    destruct (keys_obj_set_extend k (g k) o) as [[e2 H3] H4].
    split; [|auto].
    exists (e2 ++ e1)%list. now rewrite H1, H3, app_assoc.
Qed.

Lemma keys_assign (t s : obj) :
  (exists extra, map fst (assign t s) = (map fst t ++ extra)%list)
  /\ (NoDup (map fst t) -> NoDup (map fst (assign t s))).
Proof. apply keys_fold_set. Qed.

Lemma keys_Object_assign (sources : list value) :
  forall t : obj,
    (exists extra,
        map fst (Object_assign t sources) = (map fst t ++ extra)%list)
    /\ (NoDup (map fst t) -> NoDup (map fst (Object_assign t sources))).
Proof.
  unfold Object_assign.
  induction sources as [|x sources IH]; intros t; simpl.
  - split; [exists []; now rewrite app_nil_r|auto].
  - destruct (IH (assign t (spread_of x))) as [[e1 H1] H2].
    destruct (keys_assign t (spread_of x)) as [[e2 H3] H4].
    split; [|auto].
    exists (e2 ++ e1)%list. now rewrite H1, H3, app_assoc.
Qed.

(** In the model, the configuration a verb hands to [request] and the
    one [request] hands on have no key twice, and merging appends new
    keys without moving an earlier one. *)
Lemma merged_configuration_keys
  (this : FetchRequest) (method configs url data : value)
  (args : list value) (call_configs : obj) :
  NoDup (map fst (createRequest_config method configs url data args))
  /\ (exists extra,
        map fst (createRequest_config method configs url data args)
        = ("method" :: "url" :: "data" :: extra))
  /\ NoDup (map fst (request_config this call_configs))
  /\ (exists extra,
        map fst (request_config this call_configs) = "url" :: extra).
Proof.
  unfold createRequest_config, request_config.
  destruct (keys_Object_assign (configs :: map labelToConfig args)
              [("method", method); ("url", url); ("data", data)])
    as [[e1 H1] H2].
  destruct (keys_assign [("url", request_url this call_configs)]
              (defaultConfig this)) as [[e2 H3] H4].
  destruct (keys_assign
              (assign [("url", request_url this call_configs)]
                      (defaultConfig this))
              (obj_remove "url" call_configs)) as [[e3 H5] H6].
  split; [|split; [|split]].
  - apply H2. simpl. repeat constructor; simpl; intuition discriminate.
  - exists e1. exact H1.
  - apply H6, H4. simpl. repeat constructor. intros [].
  - exists (e2 ++ e3)%list. rewrite H5, H3. reflexivity.
Qed.

(** X2.  On a facade made by [new FetchRequest(c)], every key other than
    [url] is read from the call configuration if it has the key, else
    from [c.defaultConfig] if that has it, else from the built-in
    defaults. *)
Theorem precedence_call_over_instance_over_builtin
  (c : TFetchRequestConfig) (configs : obj) (k : string) :
  k <> "url" ->
  obj_get k (request_config (new_FetchRequest (Some c)) configs)
  = if obj_has k configs then obj_get k configs
    else if obj_has k (or_else (init_defaultConfig c) [])
         then obj_get k (or_else (init_defaultConfig c) [])
         else obj_get k initial_defaultConfig.
Proof.
  intros Hk. rewrite obj_get_request_config.
  apply String.eqb_neq in Hk. rewrite Hk.
  destruct (obj_has k configs); auto.
  simpl. apply obj_get_assign.
Qed.

(** X3.  [upload(url, data, ...args)] hands [request] the configuration
    that [post(url, data, { headers: {} }, ...args)] hands it. *)
Theorem upload_is_post_with_empty_headers
  (this : FetchRequest) (url data : value) (args : list value) :
  createRequest_config (VStr "POST") (VObject [("headers", VObject [])])
    url data args
  = createRequest_config (VStr "POST") VUndefined url data
      (VObject [("headers", VObject [])] :: args)
  /\ upload this url data args
     = post this url data (VObject [("headers", VObject [])] :: args).
Proof.
  assert (H : createRequest_config (VStr "POST")
                (VObject [("headers", VObject [])]) url data args
              = createRequest_config (VStr "POST") VUndefined url data
                  (VObject [("headers", VObject [])] :: args))
    by reflexivity.
  split; [exact H|].
  unfold upload, post, createRequest. now rewrite H.
Qed.

Lemma Object_assign_none_names (k : string) (fragments : list value) :
  Notions.none_names k fragments = true ->
  forall t : obj,
    obj_get k (Object_assign t (map labelToConfig fragments)) = obj_get k t
    /\ obj_has k (Object_assign t (map labelToConfig fragments))
       = obj_has k t.
Proof.
  unfold Object_assign, Notions.none_names.
  induction fragments as [|f fragments IH]; intros H t; simpl; auto.
  simpl in H. apply andb_true_iff in H. destruct H as [Hf Hr].
  apply negb_true_iff in Hf.
  destruct (IH Hr (assign t (spread_of (labelToConfig f)))) as [H1 H2].
  rewrite H1, H2, obj_get_assign, obj_has_assign, Hf. auto.
Qed.

End MergerMore.

(** ** More on the body synthesizer *)

Section BodySynthesizerMore.

Context {P : Platform}.

Lemma append_assoc (a b c : string) : (a ++ b) ++ c = a ++ b ++ c.
Proof.
  induction a as [|x a IH]; simpl; auto. now rewrite IH.
Qed.

Lemma written_loop_fields (key : string) (fields : obj) :
  Forall (fun kv => forall key body,
            getFormData_body (snd kv) key body
            = if Notions.hits_null (snd kv)
              then Throw (TypeError
                            "Cannot convert undefined or null to object")
              else Ok (body ++ Notions.written key (snd kv))%list) fields ->
  forall body,
    getFormData_loop fields key body
    = if Notions.hits_null (VObject fields)
      then Throw (TypeError "Cannot convert undefined or null to object")
      else Ok (body ++ Notions.written key (VObject fields))%list.
Proof.
  induction 1 as [|[i item] fields Hitem _ IH]; intros body.
  - simpl. now rewrite app_nil_r.
  - simpl in *.
    destruct (typeof_object item && negb (is_File item)); simpl.
    + rewrite Hitem. destruct (Notions.hits_null item); simpl; auto.
      rewrite IH. destruct (_ fields); auto. now rewrite <- app_assoc.
    + rewrite IH. destruct (_ fields); auto. now rewrite <- app_assoc.
Qed.

Lemma written_loop_index (key : string) (items : list value) :
  Forall (fun item => forall key body,
            getFormData_body item key body
            = if Notions.hits_null item
              then Throw (TypeError
                            "Cannot convert undefined or null to object")
              else Ok (body ++ Notions.written key item)%list) items ->
  forall n body,
    getFormData_loop (index_entries n items) key body
    = if Notions.hits_null (VArray items)
      then Throw (TypeError "Cannot convert undefined or null to object")
      else Ok (body ++
               (fix go (n : nat) (l : list value) : obj :=
                  match l with
                  | [] => []
                  | item :: r =>
                      ((if typeof_object item && negb (is_File item)
                        then Notions.written
                               (field_name key (nat_to_string n)) item
                        else [(field_name key (nat_to_string n), item)])
                       ++ go (S n) r)%list
                  end) n items)%list.
Proof.
  induction 1 as [|item items Hitem _ IH]; intros n body.
  - simpl. now rewrite app_nil_r.
  - simpl in *.
    destruct (typeof_object item && negb (is_File item)); simpl.
    + rewrite Hitem. destruct (Notions.hits_null item); simpl; auto.
      rewrite IH. destruct (_ items); auto. now rewrite <- app_assoc.
    + rewrite IH. destruct (_ items); auto. now rewrite <- app_assoc.
Qed.

(** The form-field writer without its state: it throws when it meets
    [null], and otherwise appends [written key data] to the body. *)
Lemma getFormData_body_exact (data : value) :
  forall (key : string) (body : obj),
    getFormData_body data key body
    = if Notions.hits_null data
      then Throw (TypeError "Cannot convert undefined or null to object")
      else Ok (body ++ Notions.written key data)%list.
Proof.
  induction data using value_nested_ind; intros key body;
    try reflexivity; try (simpl; now rewrite app_nil_r).
  - rewrite getFormData_entries by reflexivity. simpl Object_entries.
    simpl bind. now apply written_loop_fields.
  - rewrite getFormData_entries by reflexivity. simpl Object_entries.
    simpl bind. now apply written_loop_index.
Qed.

(** X4.  [getFormData] throws a [TypeError] exactly when [data] is
    [null] or [undefined] or a [null] sits where the writer descends (in
    a plain object or an array reached from [data]); otherwise it returns
    [data] itself when that is a [FormData], and else a [FormData] whose
    entries do not depend on anything but [data]. *)
Theorem getFormData_throws_on_null (data : value) :
  getFormData data
  = if Notions.hits_null data
    then Throw (TypeError "Cannot convert undefined or null to object")
    else Ok (if is_FormData data then data
             else VFormData (Notions.written "" data)).
Proof.
  unfold getFormData. destruct (is_FormData data) eqn:E.
  - destruct data; try discriminate. reflexivity.
  - rewrite getFormData_body_exact.
    destruct (Notions.hits_null data); reflexivity.
Qed.

(** X5.  A call of the form-field writer that returns has only appended
    to the body it was given: the earlier entries are kept, in place, and
    the entries added are the ones the same call adds to an empty
    body. *)
Theorem getFormData_only_appends
  (data : value) (key : string) (body body' : obj) :
  getFormData_body data key body = Ok body' ->
  exists added,
    getFormData_body data key [] = Ok added
    /\ body' = (body ++ added)%list.
Proof.
  rewrite !getFormData_body_exact.
  destruct (Notions.hits_null data); try discriminate.
  intros H. injection H as <-. eexists. split; reflexivity.
Qed.

Lemma prefix_trans (a b c : string) :
  String.prefix a b = true -> String.prefix b c = true ->
  String.prefix a c = true.
Proof.
  rewrite !prefix_occurs. intros [x ->] [y ->].
  exists (x ++ y). apply append_assoc.
Qed.

Lemma field_name_prefix (key i : string) :
  key <> "" -> String.prefix (key ++ "[") (field_name key i) = true.
Proof.
  intros H. unfold field_name. apply String.eqb_neq in H. rewrite H.
  apply prefix_occurs. exists (i ++ "]"). now rewrite append_assoc.
Qed.

Lemma field_name_nonempty (key i : string) :
  key <> "" -> field_name key i <> "".
Proof.
  intros H. unfold field_name.
  destruct (String.eqb key "") eqn:E.
  - apply String.eqb_eq in E. contradiction.
  - destruct key; [contradiction|discriminate].
Qed.

Lemma nested_prefix (key i name : string) :
  key <> "" ->
  String.prefix (field_name key i ++ "[") name = true ->
  String.prefix (key ++ "[") name = true.
Proof.
  intros Hk. apply prefix_trans.
  apply prefix_app. now apply field_name_prefix.
Qed.

Lemma written_names (data : value) :
  forall key : string,
    key <> "" ->
    Forall (fun kv => String.prefix (key ++ "[") (fst kv) = true)
           (Notions.written key data).
Proof.
  induction data using value_nested_ind; intros key Hk;
    try (simpl; constructor).
  - simpl. apply Forall_map. apply Forall_forall. intros e _.
    now apply field_name_prefix.
  - simpl. induction H as [|[i item] fields Hitem _ IH]; simpl; auto.
    apply Forall_app. split; [|exact IH].
    destruct (typeof_object item && negb (is_File item)).
    + eapply Forall_impl; [|apply Hitem; now apply field_name_nonempty].
      intros kv. now apply nested_prefix.
    + constructor; [now apply field_name_prefix|constructor].
  - simpl. generalize 0%nat.
    induction H as [|item items Hitem _ IH]; intros n; simpl; auto.
    apply Forall_app. split; [|apply IH].
    destruct (typeof_object item && negb (is_File item)).
    + eapply Forall_impl; [|apply Hitem; now apply field_name_nonempty].
      intros kv. now apply nested_prefix.
    + constructor; [now apply field_name_prefix|constructor].
Qed.

(** X6.  Every entry the form-field writer adds while it works under a
    non-empty key has a name that starts with that key and an opening
    bracket: what is nested in [outer] is written as [outer[...]]. *)
Theorem getFormData_names_stay_under_key
  (data : value) (key : string) (body body' : obj) :
  key <> "" ->
  getFormData_body data key body = Ok body' ->
  exists added,
    body' = (body ++ added)%list
    /\ Forall (fun kv => String.prefix (key ++ "[") (fst kv) = true) added.
Proof.
  intros Hk. rewrite getFormData_body_exact.
  destruct (Notions.hits_null data); try discriminate.
  intros H. injection H as <-. eexists. split; [reflexivity|].
  now apply written_names.
Qed.

Lemma toBody_other (config : obj) :
  strict_eq_str (obj_get "method" config) "GET" = false ->
  toBody config
  = match (if truthy (contentType config)
           then applicationToBodyFun (to_str (contentType config))
           else Some getFormData) with
    | None => Throw (TypeError "toBodyFun is not a function")
    | Some f =>
        body <- f (obj_get "data" config) ;; Ok (obj_set "body" body config)
    end.
Proof. intros H. unfold toBody. now rewrite H. Qed.

Lemma known_is_truthy (v : value) :
  Spec.known_content_type v = true -> truthy v = true.
Proof.
  intros H. destruct (truthy v) eqn:T; auto.
  rewrite falsy_not_known in H by exact T. discriminate.
Qed.

(** X7.  For a method other than ['GET']: a content type whose text is
    ['application/json'] puts [JSON.stringify(data)] in [body]; one whose
    text is ['application/x-www-form-urlencoded'] puts
    [qs.stringify(data)] there. *)
Theorem toBody_encodes_by_content_type (config : obj) :
  strict_eq_str (obj_get "method" config) "GET" = false ->
  (to_str (contentType config) = application_json ->
   toBody config
   = Ok (obj_set "body" (JSON_stringify (obj_get "data" config)) config))
  /\ (to_str (contentType config) = application_form ->
      toBody config
      = Ok (obj_set "body" (VStr (qs_stringify (obj_get "data" config)))
              config)).
Proof.
  intros Hm. split; intros Hct; rewrite toBody_other by exact Hm.
  - rewrite known_is_truthy
      by (unfold Spec.known_content_type; rewrite Hct; reflexivity).
    rewrite Hct. reflexivity.
  - rewrite known_is_truthy
      by (unfold Spec.known_content_type; rewrite Hct; reflexivity).
    rewrite Hct. reflexivity.
Qed.

(** X8.  For a method other than ['GET'], a content type that is set but
    is neither of the two known ones (nor the name of a member every
    object inherits) makes [toBody] throw a [TypeError], and leaves the
    configuration as it was: no [body] is written. *)
Theorem toBody_throws_on_unknown_content_type (config : obj) :
  strict_eq_str (obj_get "method" config) "GET" = false ->
  truthy (contentType config) = true ->
  Spec.known_content_type (contentType config) = false ->
  existsb (String.eqb (to_str (contentType config))) Object_prototype_names
  = false ->
  toBody config = Throw (TypeError "toBodyFun is not a function")
  /\ toBody_effect config = config.
Proof.
  intros Hm Ht Hk Hp.
  assert (H : toBody config = Throw (TypeError "toBodyFun is not a function")).
  { rewrite toBody_other by exact Hm. rewrite Ht.
    unfold applicationToBodyFun. unfold Spec.known_content_type in Hk.
    apply orb_false_iff in Hk. destruct Hk as [-> ->]. now rewrite Hp. }
  split; [exact H|]. unfold toBody_effect. now rewrite H.
Qed.

End BodySynthesizerMore.

(** ** More on the request facade *)

Section FacadeMore.

Context {P : Platform} {W : World}.

(** X9.  [upload] always takes the multipart path, whatever headers the
    defaults hold: when no fragment of the call names [headers] or
    [method], the merged [headers] is the empty object, no content type
    is found, and [body] is what [getFormData] makes of the merged
    [data] (an exception of [getFormData] being passed on). *)
Theorem upload_ignores_default_headers
  (this : FetchRequest) (url data : value) (args : list value) :
  Notions.none_names "headers" args = true ->
  Notions.none_names "method" args = true ->
  let config :=
    request_config this
      (createRequest_config (VStr "POST")
         (VObject [("headers", VObject [])]) url data args) in
  obj_get "headers" config = VObject []
  /\ contentType config = VStr ""
  /\ toBody config
     = (body <- getFormData (obj_get "data" config) ;;
        Ok (obj_set "body" body config)).
Proof.
  intros Hh Hm config.
  assert (Hheaders : obj_get "headers" config = VObject []).
  { unfold config. rewrite obj_get_request_config. simpl String.eqb.
    unfold createRequest_config, Object_assign. cbn [fold_left].
    destruct (Object_assign_none_names "headers" args Hh
                (assign [("method", VStr "POST"); ("url", url);
                         ("data", data)]
                        (spread_of (VObject [("headers", VObject [])]))))
      as [H1 H2].
    unfold Object_assign in H1, H2. rewrite H1, H2. reflexivity. }
  assert (Hmethod : obj_get "method" config = VStr "POST").
  { unfold config. rewrite obj_get_request_config. simpl String.eqb.
    unfold createRequest_config, Object_assign. cbn [fold_left].
    destruct (Object_assign_none_names "method" args Hm
                (assign [("method", VStr "POST"); ("url", url);
                         ("data", data)]
                        (spread_of (VObject [("headers", VObject [])]))))
      as [H1 H2].
    unfold Object_assign in H1, H2. rewrite H1, H2. reflexivity. }
  assert (Hct : contentType config = VStr "").
  { unfold contentType. rewrite Hheaders. reflexivity. }
  split; [exact Hheaders|]. split; [exact Hct|].
  rewrite toBody_other by (rewrite Hmethod; reflexivity).
  rewrite Hct. reflexivity.
Qed.

(** X10.  With the built-in headers and a call that brings none of its
    own, a request whose method is not ['GET'] carries
    [JSON.stringify(data)] as its [body]. *)
Theorem builtin_headers_send_json (this : FetchRequest) (configs : obj) :
  obj_get "headers" (defaultConfig this)
  = obj_get "headers" initial_defaultConfig ->
  obj_has "headers" configs = false ->
  let config := request_config this configs in
  strict_eq_str (obj_get "method" config) "GET" = false ->
  contentType config = VStr application_json
  /\ toBody config
     = Ok (obj_set "body" (JSON_stringify (obj_get "data" config)) config).
Proof.
  intros Hd Hc config Hm.
  assert (Hct : contentType config = VStr application_json).
  { unfold contentType, config. rewrite obj_get_request_config.
    simpl String.eqb. rewrite Hc, Hd. reflexivity. }
  split; [exact Hct|].
  rewrite toBody_other by exact Hm. rewrite Hct. reflexivity.
Qed.

Lemma request_after_toBody (this : FetchRequest) (configs config1 : obj) :
  core_pipeline this ->
  toBody (request_config this configs) = Ok config1 ->
  let config := obj_set "signal" (VHost "AbortSignal") config1 in
  let delay := timer_delay (obj_get "timeout" config) in
  request this configs
  = Ok {| call_config := config;
          call_promise :=
            settle (match snd (race (fetch (obj_get "url" config) config)
                                    delay) with
                    | inl response =>
                        unwrap config
                          (fst (race (fetch (obj_get "url" config) config)
                                     delay)) response
                    | inr e =>
                        Settled
                          (fst (race (fetch (obj_get "url" config) config)
                                     delay))
                          (Rejected e)
                    end);
          call_abort_at := Some delay |}.
Proof.
  intros Hcore Hbody config delay.
  rewrite request_core by assumption.
  unfold requestFunction_default. rewrite Hbody. simpl bind.
  fold config. fold delay.
  destruct (race (fetch (obj_get "url" config) config) delay) as [t r].
  reflexivity.
Qed.

Lemma toBody_keeps_timeout (config config1 : obj) :
  toBody config = Ok config1 ->
  obj_get "timeout" config1 = obj_get "timeout" config.
Proof.
  intros H. apply (toBody_frame _ H).
  destruct (strict_eq_str _ _); discriminate.
Qed.

(** X11.  Every call that returns has attached an abort signal to the
    configuration and aborts its controller when the timer fires: the
    timer is never cleared, whatever the transport did before.  The
    timer is set with the call's [timeout] if the call configuration has
    that key, and with the facade's default otherwise. *)
Theorem timer_always_aborts
  (this : FetchRequest) (configs : obj) (c : call) :
  core_pipeline this ->
  request this configs = Ok c ->
  let timeout := if obj_has "timeout" configs then obj_get "timeout" configs
                 else obj_get "timeout" (defaultConfig this) in
  obj_get "signal" (call_config c) = VHost "AbortSignal"
  /\ obj_get "timeout" (call_config c) = timeout
  /\ call_abort_at c = Some (timer_delay timeout).
Proof.
  intros Hcore Hreq timeout.
  destruct (toBody (request_config this configs)) as [config1|e] eqn:Hbody.
  - rewrite (request_after_toBody _ Hcore Hbody) in Hreq.
    injection Hreq as <-. cbn [call_config call_abort_at].
    assert (Ht : obj_get "timeout"
                   (obj_set "signal" (VHost "AbortSignal") config1)
                 = timeout).
    { rewrite obj_get_set_other by discriminate.
      rewrite (toBody_keeps_timeout _ Hbody).
      rewrite obj_get_request_config. reflexivity. }
    rewrite Ht. split; [apply obj_get_set_same|]. split; reflexivity.
  - rewrite request_core in Hreq by assumption.
    unfold requestFunction_default in Hreq. rewrite Hbody in Hreq.
    discriminate.
Qed.

(** X12.  An exception of body synthesis is not turned into error
    fields: [request] throws it to its caller, before any promise is
    made. *)
Theorem body_exception_is_thrown
  (this : FetchRequest) (configs : obj) (e : value) :
  core_pipeline this ->
  toBody (request_config this configs) = Throw e ->
  request this configs = Throw e.
Proof.
  intros Hcore Hbody. rewrite request_core by assumption.
  unfold requestFunction_default. now rewrite Hbody.
Qed.

(** X13.  An exception of the response interceptor is not classified
    either: when the request function's promise settles at time [t] and
    the interceptor throws on the envelope, the promise of [request]
    rejects at [t] with what the interceptor threw, also when the
    transport itself had failed. *)
Theorem response_interceptor_exception_rejects
  (this : FetchRequest) (configs config : obj) (c0 : call) (t : N)
  (s : settlement) (e : value) :
  interceptorsRequest this (request_config this configs) = Ok config ->
  requestFunction this config = Ok c0 ->
  call_promise c0 = Settled t s ->
  interceptorsResponse this
    (envelope (statisticalTime (clock 0) (clock t))
              (match s with
               | Resolved v => v
               | Rejected error => on_error error
               end))
    (call_config c0) = Throw e ->
  exists c,
    request this configs = Ok c
    /\ call_promise c = Settled t (Rejected e).
Proof.
  intros Hreq Hfun Hp Hint. unfold request.
  rewrite Hreq. simpl bind. rewrite Hfun. simpl bind.
  eexists. split; [reflexivity|]. cbn [call_promise].
  rewrite Hp. destruct s as [v|error]; simpl; now rewrite Hint.
Qed.

Lemma request_arrives
  (this : FetchRequest) (configs config : obj) (t : N) (response : fetched) :
  arrives this configs config t response ->
  request this configs
  = Ok {| call_config := config;
          call_promise := settle (unwrap config t response);
          call_abort_at := Some (timer_delay (obj_get "timeout" config)) |}.
Proof.
  intros (Hcore & (config1 & Hbody & ->) & Hfetch & Ht).
  rewrite (request_after_toBody _ Hcore Hbody).
  unfold race. rewrite Hfetch, Ht. reflexivity.
Qed.

(** X14.  When the response arrives before the timer and the response
    type is missing or ['json'], the call settles when [response.json()]
    does, however late that is, and stays pending if it never does: it
    resolves with the decoded value under the timing, or with the error
    fields if decoding rejects. *)
Theorem json_body_decides
  (this : FetchRequest) (configs config : obj) (t : N) (r : Response) :
  arrives this configs config t (IsResponse r) ->
  truthy (obj_get "responseType" config)
  && negb (strict_eq_str (obj_get "responseType" config) "json") = false ->
  exists c,
    request this configs = Ok c
    /\ call_promise c
       = match json r with
         | Pending => Pending
         | Settled dt (Resolved v) =>
             Settled (t + dt)
               (Resolved (envelope (statisticalTime (clock 0)
                                      (clock (t + dt))) v))
         | Settled dt (Rejected e) =>
             Settled (t + dt)
               (Resolved
                  (VObject
                     [("time", statisticalTime (clock 0) (clock (t + dt)));
                      ("error", e);
                      ("errorText", VStr (erroToText e))]))
         end.
Proof.
  intros Harr Hrt. rewrite (request_arrives Harr).
  eexists. split; [reflexivity|]. cbn [call_promise].
  unfold unwrap. rewrite Hrt.
  destruct (json r) as [|dt [v|e]]; reflexivity.
Qed.

(** X15.  When the response arrives before the timer and the response
    type is set and is not ['json'], the call resolves at once, without
    waiting for the body: with [{ time, [responseType]:
    response[responseType]() }] if that member can be called, and with
    the error fields of the exception if it cannot. *)
Theorem other_response_type_resolves_at_once
  (this : FetchRequest) (configs config : obj) (t : N) (r : Response) :
  arrives this configs config t (IsResponse r) ->
  truthy (obj_get "responseType" config) = true ->
  strict_eq_str (obj_get "responseType" config) "json" = false ->
  let name := to_str (obj_get "responseType" config) in
  let time := statisticalTime (clock 0) (clock t) in
  exists c,
    request this configs = Ok c
    /\ call_promise c
       = Settled t
           (Resolved
              (match member_call r name with
               | Ok v =>
                   VObject (if String.eqb name "time" then [("time", v)]
                            else [("time", time); (name, v)])
               | Throw e =>
                   VObject [("time", time); ("error", e);
                            ("errorText", VStr (erroToText e))]
               end)).
Proof.
  intros Harr Ht Hj name time. rewrite (request_arrives Harr).
  eexists. split; [reflexivity|]. cbn [call_promise].
  unfold unwrap. rewrite Ht, Hj. simpl andb. cbv iota. fold name.
  destruct (member_call r name) as [v|e]; [|reflexivity].
  unfold settle, envelope, assign.
  cbn [spread_of entries_of map fst fold_left obj_get obj_set].
  rewrite String.eqb_refl.
  destruct (String.eqb name "time") eqn:E; [|reflexivity].
  apply String.eqb_eq in E. rewrite E. reflexivity.
Qed.

(** X16.  When the transport fulfils, before the timer, with something
    that is not a [Response], the call resolves at once with the timing
    alone. *)
Theorem non_response_resolves_with_timing
  (this : FetchRequest) (configs config : obj) (t : N) (v : value) :
  arrives this configs config t (NotResponse v) ->
  exists c,
    request this configs = Ok c
    /\ call_promise c
       = Settled t
           (Resolved
              (VObject [("time", statisticalTime (clock 0) (clock t))])).
Proof.
  intros Harr. rewrite (request_arrives Harr).
  eexists. split; reflexivity.
Qed.

(** X17.  A ['GET'] call on the core pipeline always returns a promise,
    and the configuration it leaves (the one the transport is called
    with) has the merged [url] followed by ['?'] and the query string of
    the merged [data], or the merged [url] itself when that string is
    empty; it has a [body] only if the merged configuration had one. *)
Theorem get_sends_query_in_url (this : FetchRequest) (configs : obj) :
  core_pipeline this ->
  let merged := request_config this configs in
  strict_eq_str (obj_get "method" merged) "GET" = true ->
  exists c,
    request this configs = Ok c
    /\ obj_get "url" (call_config c)
       = (if String.eqb (qs_stringify (obj_get "data" merged)) ""
          then obj_get "url" merged
          else VStr (to_str (obj_get "url" merged) ++ "?"
                     ++ qs_stringify (obj_get "data" merged)))
    /\ obj_has "body" (call_config c) = obj_has "body" merged.
Proof.
  intros Hcore merged Hm.
  pose proof (toBody_GET _ Hm) as Hbody. fold merged in Hbody.
  rewrite (request_after_toBody _ Hcore Hbody).
  eexists. split; [reflexivity|]. cbn [call_config].
  rewrite obj_get_set_other, obj_has_set_other by discriminate.
  destruct (String.eqb (qs_stringify (obj_get "data" merged)) "").
  - split; reflexivity.
  - split; [apply obj_get_set_same|now apply obj_has_set_other].
Qed.

(** X18.  Giving [request] a url it has already resolved changes
    nothing when [host + apiPath] starts with ['http']; when neither
    that nor the url does, the base path is put in front a second
    time. *)
Theorem resolved_url_is_stable_under_http_base
  (this : FetchRequest) (configs configs' : obj) :
  obj_get "url" configs' = request_url this configs ->
  (String.prefix "http" (baseURL this) = true ->
   request_url this configs' = request_url this configs)
  /\ (String.prefix "http" (to_str (request_url this configs)) = false ->
      request_url this configs'
      = VStr (baseURL this ++ to_str (request_url this configs))).
Proof.
  intros Hurl.
  assert (Hdef : forall u, request_url this configs = u ->
                 u <> VUndefined).
  { intros u <-. unfold request_url.
    destruct (obj_get "url" configs); simpl;
      try destruct (String.prefix "http" _); discriminate. }
  assert (Hsame : match obj_get "url" configs' with
                  | VUndefined => VStr ""
                  | u => u
                  end = request_url this configs).
  { rewrite Hurl. specialize (Hdef _ eq_refl).
    destruct (request_url this configs); congruence. }
  split.
  - intros Hbase. unfold request_url at 1. rewrite Hsame.
    assert (Hp : String.prefix "http" (to_str (request_url this configs))
                 = true).
    { unfold request_url.
      destruct (String.prefix "http"
                  (to_str match obj_get "url" configs with
                          | VUndefined => VStr ""
                          | u => u
                          end)) eqn:E; auto.
      simpl. now apply prefix_app. }
    now rewrite Hp.
  - intros Hp. unfold request_url at 1. rewrite Hsame. now rewrite Hp.
Qed.

(** X19.  [log.request] opens one console group, prints four lines and
    closes the group.  [log.response] throws, before printing anything,
    exactly when [res] is [null] or [undefined]; otherwise it opens one
    group, prints one line on success and three on failure, and closes
    the group.  It never throws on an envelope made by [request]. *)
Theorem log_groups_are_closed
  (res : value) (config : obj) (success : bool) :
  Notions.one_group 4 (log_request config)
  /\ ((res = VUndefined \/ res = VNull) ->
      exists e, log_response res config success = Throw e)
  /\ (res <> VUndefined -> res <> VNull ->
      exists calls,
        log_response res config success = Ok calls
        /\ Notions.one_group (if success then 1 else 3) calls)
  /\ (forall time result,
        exists calls,
          log_response (envelope time result) config success = Ok calls).
Proof.
  split; [|split; [|split]].
  - unfold log_request. eexists.
    exists [[VStr "请求类型："; obj_get "method" config];
            [VStr "请求地址："; obj_get "url" config];
            [VStr "请求数据："; js_or (obj_get "data" config) (VStr "无")];
            [VStr "请求配置："; VObject config]].
    split; reflexivity.
  - intros [-> | ->]; eexists; reflexivity.
  - intros H1 H2.
    assert (Hm : member res "time" = Ok (prop_get res "time"))
      by (destruct res; try reflexivity; contradiction).
    unfold log_response. rewrite Hm. simpl bind.
    eexists. split; [reflexivity|].
    destruct success.
    + eexists. exists [[VStr "响应数据："; res]]. split; reflexivity.
    + eexists.
      exists [[VStr "响应数据："; res];
              [VStr "响应异常："; js_or (prop_get res "error") (VStr "无")];
              [VStr "异常解析："; prop_get res "errorText"]].
      split; reflexivity.
  - intros time result. unfold log_response, envelope.
    eexists. reflexivity.
Qed.

End FacadeMore.

(** ** The additional properties on concrete inputs *)

Section MoreExamples.

Import Sample Cases.

Lemma core_pipeline_configured (W : World) :
  @core_pipeline platform W (@new_FetchRequest platform W (Some configured)).
Proof. repeat split. Qed.

Lemma arrives_sent (W : World) (this : FetchRequest) (configs : obj)
  (t : N) (response : fetched) :
  @core_pipeline platform W this ->
  @toBody platform (request_config this configs)
  = Ok (@toBody_effect platform (request_config this configs)) ->
  @fetch W (obj_get "url" (sent this configs)) (sent this configs)
  = Fulfils t response ->
  (t <? @timer_delay platform (obj_get "timeout" (sent this configs)))%N
  = true ->
  @arrives platform W this configs (sent this configs) t response.
Proof.
  intros Hcore Hbody Hfetch Ht. split; [exact Hcore|].
  split; [|split; assumption].
  eexists. split; [exact Hbody|reflexivity].
Qed.

(** X2, witness: [timeout] from the instance, [mode] from the built-in
    defaults. *)
Lemma precedence_witness :
  "timeout" <> "url"
  /\ obj_get "timeout"
       (request_config (@new_FetchRequest platform silent (Some configured))
          post_items)
     = VNum 3000.
Proof.
  split; [discriminate|].
  exact (@precedence_call_over_instance_over_builtin platform silent
           configured post_items "timeout" ltac:(discriminate)).
Defined.

(** X5, witness. *)
Lemma getFormData_only_appends_witness :
  getFormData_body (VObject [("a", VObject [("b", VNum 1)])]) ""
    [("x", VStr "y")]
  = Ok [("x", VStr "y"); ("a[b]", VNum 1)]
  /\ exists added,
       getFormData_body (VObject [("a", VObject [("b", VNum 1)])]) "" []
       = Ok added
       /\ [("x", VStr "y"); ("a[b]", VNum 1)]
          = ([("x", VStr "y")] ++ added)%list.
Proof.
  split; [reflexivity|].
  exact (@getFormData_only_appends
           (VObject [("a", VObject [("b", VNum 1)])]) ""
           [("x", VStr "y")] _ eq_refl).
Defined.

(** X6, witness. *)
Lemma getFormData_names_witness :
  "meta" <> ""
  /\ exists added,
       [("meta[tags][0]", VStr "a"); ("meta[tags][1]", VNum 2)]
       = ([] ++ added)%list
       /\ Forall (fun kv => String.prefix "meta[" (fst kv) = true) added.
Proof.
  split; [discriminate|].
  exact (@getFormData_names_stay_under_key
           (VObject [("tags", VArray [VStr "a"; VNum 2])]) "meta" [] _
           ltac:(discriminate) eq_refl).
Defined.

(** X7, witness. *)
Lemma toBody_encodes_witness :
  strict_eq_str (obj_get "method" post_two_types) "GET" = false
  /\ to_str (contentType post_two_types) = application_form
  /\ @toBody platform post_two_types
     = Ok (obj_set "body" (VStr "a=1") post_two_types).
Proof.
  split; [reflexivity|]. split; [reflexivity|].
  exact (proj2 (@toBody_encodes_by_content_type platform post_two_types
                  eq_refl) eq_refl).
Defined.

(** X8, witness. *)
Lemma toBody_unknown_witness :
  strict_eq_str (obj_get "method" post_plain) "GET" = false
  /\ truthy (contentType post_plain) = true
  /\ Spec.known_content_type (contentType post_plain) = false
  /\ @toBody_effect platform post_plain = post_plain.
Proof.
  split; [reflexivity|]. split; [reflexivity|]. split; [reflexivity|].
  exact (proj2 (@toBody_throws_on_unknown_content_type platform post_plain
                  eq_refl eq_refl eq_refl eq_refl)).
Defined.

(** X9, witness: the facade's defaults carry a token header, the upload
    still has no headers. *)
Lemma upload_witness :
  Notions.none_names "headers" [VStr "avatar"] = true
  /\ Notions.none_names "method" [VStr "avatar"] = true
  /\ obj_get "headers"
       (request_config (@new_FetchRequest platform silent (Some configured))
          upload_file)
     = VObject [].
Proof.
  split; [reflexivity|]. split; [reflexivity|].
  exact (proj1 (@upload_ignores_default_headers platform
                  (@new_FetchRequest platform silent (Some configured))
                  (VStr "/files") (VObject [("file", VFile "a.png")])
                  [VStr "avatar"] eq_refl eq_refl)).
Defined.

(** X10, witness. *)
Lemma builtin_headers_witness :
  obj_has "headers" post_items = false
  /\ @contentType (request_config this_silent post_items)
     = VStr application_json.
Proof.
  split; [reflexivity|].
  exact (proj1 (@builtin_headers_send_json platform this_silent post_items
                  eq_refl eq_refl eq_refl)).
Defined.

(** X11, witness: the instance's timeout of 3000 sets the timer, and the
    controller is aborted then although the response came after 20. *)
Lemma timer_always_aborts_witness :
  exists c,
    @request platform (answering VNull)
      (@new_FetchRequest platform (answering VNull) (Some configured))
      post_items = Ok c
    /\ call_promise c
       = Settled 25
           (Resolved
              (VObject
                 [("time",
                   VObject [("start", VStr "22:13:20 GMT+0000");
                            ("end", VStr "22:13:20 GMT+0000");
                            ("total", VStr "0.025秒")])]))
    /\ call_abort_at c = Some 3000%N.
Proof.
  eexists. split; [vm_compute; reflexivity|]. split; [reflexivity|].
  exact (proj2 (proj2
           (@timer_always_aborts platform (answering VNull)
              (@new_FetchRequest platform (answering VNull)
                 (Some configured))
              post_items _
              (core_pipeline_configured (answering VNull)) eq_refl))).
Defined.

(** X12, witness: [upload('/files')] without data. *)
Lemma body_exception_witness :
  @toBody platform (request_config this_silent upload_nothing)
  = Throw (TypeError "Cannot convert undefined or null to object")
  /\ @request platform silent this_silent upload_nothing
     = Throw (TypeError "Cannot convert undefined or null to object").
Proof.
  split; [reflexivity|].
  exact (@body_exception_is_thrown platform silent this_silent
           upload_nothing _ (core_pipeline_default platform silent)
           eq_refl).
Defined.

(** X13, witness. *)
Lemma response_interceptor_witness :
  exists c,
    @request platform (answering VNull)
      (@new_FetchRequest platform (answering VNull) (Some throwing))
      post_items = Ok c
    /\ call_promise c = Settled 25 (Rejected (VError "Error" "interceptor")).
Proof.
  refine (@response_interceptor_exception_rejects platform
            (answering VNull)
            (@new_FetchRequest platform (answering VNull) (Some throwing))
            post_items _ _ 25%N (Resolved VNull)
            (VError "Error" "interceptor") eq_refl _ _ eq_refl).
  - vm_compute. reflexivity.
  - reflexivity.
Defined.

(** X14, witness: the body takes 6000 milliseconds, the timer is set to
    5000, and the call resolves at 6020. *)
Lemma json_body_witness :
  @arrives platform (slow_body (VNum 7))
    (@new_FetchRequest platform (slow_body (VNum 7)) None) post_items
    (sent (@new_FetchRequest platform (slow_body (VNum 7)) None) post_items)
    20 (IsResponse (slow_response (VNum 7)))
  /\ exists c,
       @request platform (slow_body (VNum 7))
         (@new_FetchRequest platform (slow_body (VNum 7)) None) post_items
       = Ok c
       /\ call_promise c
          = Settled 6020
              (Resolved
                 (VObject
                    [("time",
                      VObject [("start", VStr "22:13:20 GMT+0000");
                               ("end", VStr "22:13:26 GMT+0000");
                               ("total", VStr "6.02秒")])])).
Proof.
  assert (H : @arrives platform (slow_body (VNum 7))
                (@new_FetchRequest platform (slow_body (VNum 7)) None)
                post_items
                (sent (@new_FetchRequest platform (slow_body (VNum 7)) None)
                      post_items)
                20 (IsResponse (slow_response (VNum 7)))).
  { apply arrives_sent; try reflexivity. apply core_pipeline_default. }
  split; [exact H|].
  exact (@json_body_decides platform (slow_body (VNum 7)) _ _ _ _ _ H
           eq_refl).
Defined.

(** X15, witness: [responseType: 'text'] gives the promise of the text,
    [responseType: 'xml'] the error fields. *)
Lemma other_response_type_witness :
  @arrives platform (answering VNull)
    (@new_FetchRequest platform (answering VNull) None) post_as_nonsense
    (sent (@new_FetchRequest platform (answering VNull) None)
          post_as_nonsense)
    20 (IsResponse (response VNull))
  /\ exists c,
       @request platform (answering VNull)
         (@new_FetchRequest platform (answering VNull) None)
         post_as_nonsense
       = Ok c
       /\ call_promise c
          = Settled 20
              (Resolved
                 (VObject
                    [("time",
                      VObject [("start", VStr "22:13:20 GMT+0000");
                               ("end", VStr "22:13:20 GMT+0000");
                               ("total", VStr "0.02秒")]);
                     ("error",
                      TypeError "response[responseType] is not a function");
                     ("errorText", VStr "其他错误")])).
Proof.
  assert (H : @arrives platform (answering VNull)
                (@new_FetchRequest platform (answering VNull) None)
                post_as_nonsense
                (sent (@new_FetchRequest platform (answering VNull) None)
                      post_as_nonsense)
                20 (IsResponse (response VNull))).
  { apply arrives_sent; try reflexivity. apply core_pipeline_default. }
  split; [exact H|].
  exact (@other_response_type_resolves_at_once platform (answering VNull)
           _ _ _ _ _ H eq_refl eq_refl).
Defined.

(** X16, witness. *)
Lemma non_response_witness :
  @arrives platform odd_transport
    (@new_FetchRequest platform odd_transport None) post_items
    (sent (@new_FetchRequest platform odd_transport None) post_items)
    20 (NotResponse (VStr "ok"))
  /\ exists c,
       @request platform odd_transport
         (@new_FetchRequest platform odd_transport None) post_items
       = Ok c
       /\ call_promise c
          = Settled 20
              (Resolved
                 (VObject
                    [("time",
                      VObject [("start", VStr "22:13:20 GMT+0000");
                               ("end", VStr "22:13:20 GMT+0000");
                               ("total", VStr "0.02秒")])])).
Proof.
  assert (H : @arrives platform odd_transport
                (@new_FetchRequest platform odd_transport None) post_items
                (sent (@new_FetchRequest platform odd_transport None)
                      post_items)
                20 (NotResponse (VStr "ok"))).
  { apply arrives_sent; try reflexivity. apply core_pipeline_default. }
  split; [exact H|].
  exact (@non_response_resolves_with_timing platform odd_transport
           _ _ _ _ _ H).
Defined.

(** X17, witness. *)
Lemma get_query_witness :
  strict_eq_str (obj_get "method" (request_config this_silent get_test))
    "GET" = true
  /\ exists c,
       @request platform silent this_silent get_test = Ok c
       /\ obj_get "url" (call_config c) = VStr "/test?id=1000&f[a]=x"
       /\ obj_has "body" (call_config c) = false.
Proof.
  split; [reflexivity|].
  exact (@get_sends_query_in_url platform silent this_silent get_test
           (core_pipeline_default platform silent) eq_refl).
Defined.

(** X18, witness: with a host the resolved url is kept, without one the
    path would be needed a second time. *)
Lemma resolved_url_witness :
  obj_get "url" [("url", VStr "http://localhost/api/test")]
  = request_url (facade silent "http://localhost" "/api") get_test
  /\ request_url (facade silent "http://localhost" "/api")
       [("url", VStr "http://localhost/api/test")]
     = VStr "http://localhost/api/test".
Proof.
  split; [reflexivity|].
  exact (proj1 (@resolved_url_is_stable_under_http_base
                  (facade silent "http://localhost" "/api") get_test
                  [("url", VStr "http://localhost/api/test")] eq_refl)
           eq_refl).
Defined.

(** X19, witness: the failure log of a timed-out call. *)
Lemma log_witness :
  VObject [("error", VStr "request timeout")] <> VUndefined
  /\ VObject [("error", VStr "request timeout")] <> VNull
  /\ exists calls,
       log_response (VObject [("error", VStr "request timeout")])
         [("url", VStr "/test")] false = Ok calls
       /\ Notions.one_group 3 calls.
Proof.
  split; [discriminate|]. split; [discriminate|].
  exact (proj1 (proj2 (proj2
           (@log_groups_are_closed
              (VObject [("error", VStr "request timeout")])
              [("url", VStr "/test")] false)))
           ltac:(discriminate) ltac:(discriminate)).
Defined.

End MoreExamples.
